(** * Session recorder content script: locators, capture handlers, lifecycle

    A shallow embedding of the two variants of the content script kept in the
    repository:

    - [Content]  : [extension/src/entrypoints/content.ts], the variant with the
      attribute allow-list, the key filter, the scroll debounce and the
      try/catch boundaries;
    - [Part000]  : the other variant, whose locator functions guard against
      a missing element with the sentinel ["unknown"] and whose handlers have
      no key filter and no [try].

    JavaScript strings are modelled as [string]: a sequence of code units, each
    an [ascii] (code units 0..255, the Latin-1 range).  Character classes of
    the regular expressions, [trim] and [toLowerCase] are given for that whole
    range.  Object identity ([===] on nodes) is a [uid].  Exceptions are the
    [Throw] branch of [Completion]. *)

From Stdlib Require Import String Ascii List Bool Arith ZArith QArith Qround Lia.
From Stdlib Require Import DecimalString.
From Stdlib Require DecimalNat DecimalFacts.
Import ListNotations.

Local Open Scope string_scope.

(* ===================================================================== *)
(** ** JavaScript values and built-ins used by the script                 *)
(* ===================================================================== *)

Module JS.

(** A thrown exception. The script only meets the [TypeError] of a property
    read on [null] or [undefined]. *)
Inductive JsError : Type :=
| TypeError.

(** The outcome of evaluating a piece of code: a value or a throw. *)
Inductive Completion (A : Type) : Type :=
| Normal (a : A)
| Throw (e : JsError).
Arguments Normal {A} a.
Arguments Throw {A} e.

Definition bind {A B : Type} (c : Completion A) (k : A -> Completion B)
  : Completion B :=
  match c with
  | Normal a => k a
  | Throw e => Throw e
  end.

(** [try { body } catch (error) { handler }] *)
Definition try_catch {A : Type} (body : Completion A) (handler : JsError -> Completion A)
  : Completion A :=
  match body with
  | Normal a => Normal a
  | Throw e => handler e
  end.

Definition code (c : ascii) : nat := nat_of_ascii c.

Definition in_range (lo hi : nat) (c : ascii) : bool :=
  (lo <=? code c)%nat && (code c <=? hi)%nat.

Definition is_upper (c : ascii) : bool := in_range 65 90 c.   (* A-Z *)
Definition is_lower (c : ascii) : bool := in_range 97 122 c.  (* a-z *)
Definition is_digit (c : ascii) : bool := in_range 48 57 c.   (* 0-9 *)
Definition is_letter (c : ascii) : bool := is_upper c || is_lower c.
Definition is_alnum (c : ascii) : bool := is_letter c || is_digit c.

(** The double quote, as a character and as a one-character string. *)
Definition dquote_char : ascii := ascii_of_nat 34.
Definition dquote : string := String dquote_char EmptyString.
Definition backslash_char : ascii := ascii_of_nat 92.
Definition backslash : string := String backslash_char EmptyString.

(** [\s] of a regular expression: WhiteSpace and LineTerminator code units.
    Below 256 these are TAB, LF, VT, FF, CR, SPACE and NO-BREAK SPACE. *)
Definition is_regex_space (c : ascii) : bool :=
  in_range 9 13 c || (code c =? 32)%nat || (code c =? 160)%nat.

(** [String.prototype.toLowerCase], on code units below 256: A-Z and the
    Latin-1 capitals U+00C0..U+00DE (but not the multiplication sign U+00D7)
    move up by 32. *)
Definition lower_char (c : ascii) : ascii :=
  if is_upper c || (in_range 192 222 c && negb (code c =? 215)%nat)
  then ascii_of_nat (code c + 32)
  else c.

Fixpoint toLowerCase (s : string) : string :=
  match s with
  | EmptyString => EmptyString
  | String c rest => String (lower_char c) (toLowerCase rest)
  end.

(** [String.prototype.toUpperCase] on ASCII letters. The script applies it
    only to a one-character key that matched [/[a-zA-Z0-9]/], so other code
    units never reach it; they are left as they are here. *)
Definition upper_char (c : ascii) : ascii :=
  if is_lower c then ascii_of_nat (code c - 32) else c.

Fixpoint toUpperCase (s : string) : string :=
  match s with
  | EmptyString => EmptyString
  | String c rest => String (upper_char c) (toUpperCase rest)
  end.

Fixpoint string_rev_onto (s acc : string) : string :=
  match s with
  | EmptyString => acc
  | String c rest => string_rev_onto rest (String c acc)
  end.

Definition string_rev (s : string) : string := string_rev_onto s EmptyString.

Fixpoint trimStart (s : string) : string :=
  match s with
  | EmptyString => EmptyString
  | String c rest => if is_regex_space c then trimStart rest else s
  end.

(** [String.prototype.trim] (it strips the same code units as [\s]). *)
Definition trim (s : string) : string :=
  string_rev (trimStart (string_rev (trimStart s))).

(** [s.slice(0, n)] *)
Definition slice0 (n : nat) (s : string) : string := substring 0 n s.

(** [s.replace(/c/g, by)] for a one-character pattern. *)
Fixpoint replace_all_char (c : ascii) (by_ : string) (s : string) : string :=
  match s with
  | EmptyString => EmptyString
  | String d rest =>
      if Ascii.eqb d c then by_ ++ replace_all_char c by_ rest
      else String d (replace_all_char c by_ rest)
  end.

(** [re.test(s)] for a regular expression that is one character class,
    unanchored: some code unit of [s] is in the class. *)
Fixpoint test_class (cls : ascii -> bool) (s : string) : bool :=
  match s with
  | EmptyString => false
  | String c rest => cls c || test_class cls rest
  end.

(** [re.test(s)] for [/^[first][rest]*$/]. *)
Fixpoint all_class (cls : ascii -> bool) (s : string) : bool :=
  match s with
  | EmptyString => true
  | String c rest => cls c && all_class cls rest
  end.

Definition test_anchored (first rest : ascii -> bool) (s : string) : bool :=
  match s with
  | EmptyString => false
  | String c tl => first c && all_class rest tl
  end.

(** Decimal rendering of a number inside a template literal. *)
Definition number_to_string (n : nat) : string :=
  NilZero.string_of_uint (Nat.to_uint n).

(** *** [CSS.escape] (CSSOM, "serialize an identifier") *)

Definition hex_digit (n : nat) : ascii :=
  if (n <? 10)%nat then ascii_of_nat (48 + n) else ascii_of_nat (87 + n).

Definition to_hex (n : nat) : string :=
  if (n <? 16)%nat then String (hex_digit n) EmptyString
  else String (hex_digit (n / 16)) (String (hex_digit (n mod 16)) EmptyString).

(** "escape a character as code point": backslash, lowercase hex, a space. *)
Definition escape_as_code_point (c : ascii) : string :=
  backslash ++ to_hex (code c) ++ " ".

(** "escape a character": backslash, the character. *)
Definition escape_char (c : ascii) : string :=
  String backslash_char (String c EmptyString).

(** U+FFFD REPLACEMENT CHARACTER is not a code unit below 256; the one place
    that produces it writes its three UTF-8 bytes. *)
Definition replacement_character : string :=
  String (ascii_of_nat 239) (String (ascii_of_nat 191) (String (ascii_of_nat 189) EmptyString)).

Definition is_control (c : ascii) : bool :=
  in_range 1 31 c || (code c =? 127)%nat.

Definition is_hyphen (c : ascii) : bool := (code c =? 45)%nat.
Definition is_underscore (c : ascii) : bool := (code c =? 95)%nat.

(** One code unit of [CSS.escape(value)]: [index] is its position,
    [firstIsHyphen] says whether [value] starts with "-", [len] is the
    length of [value]. *)
Definition CSS_escape_unit (index : nat) (firstIsHyphen : bool) (len : nat) (c : ascii)
  : string :=
  if (code c =? 0)%nat then replacement_character
  else if is_control c
          || ((index =? 0)%nat && is_digit c)
          || ((index =? 1)%nat && is_digit c && firstIsHyphen)
       then escape_as_code_point c
  else if (index =? 0)%nat && (len =? 1)%nat && is_hyphen c
       then escape_char c
  else if (128 <=? code c)%nat || is_hyphen c || is_underscore c
          || is_digit c || is_letter c
       then String c EmptyString
  else escape_char c.

Fixpoint CSS_escape_from (index : nat) (firstIsHyphen : bool) (len : nat) (s : string)
  : string :=
  match s with
  | EmptyString => EmptyString
  | String c rest =>
      CSS_escape_unit index firstIsHyphen len c
        ++ CSS_escape_from (S index) firstIsHyphen len rest
  end.

Definition CSS_escape (value : string) : string :=
  let firstIsHyphen :=
    match value with
    | String c _ => is_hyphen c
    | EmptyString => false
    end in
  CSS_escape_from 0 firstIsHyphen (String.length value) value.

(** [Math.round]: the nearest integer, ties towards +infinity. *)
Definition Math_round (x : Q) : Z := Qfloor (x + (1 # 2)).

End JS.

Module JSNotations.
Notation "x <- c ;; k" := (JS.bind c (fun x => k))
  (at level 61, c at next level, right associativity).
End JSNotations.

(* ===================================================================== *)
(** ** The part of the DOM the script reads                               *)
(* ===================================================================== *)

Module Dom.
Import JS.

(** An element, with the properties the script reads from it. [attributes]
    is the element's attribute list in document order ([class] and [id]
    included); [type] and [value] are the DOM properties of form controls
    ([None]: the property does not exist on this element); [options] holds
    the [text] of each option of a select. *)
Record Element : Type := mkElement {
  uid : nat;
  nodeType : nat;
  tagName : string;
  attributes : list (string * string);
  type : option string;
  value : option string;
  textContent : string;
  options : list string;
  selectedIndex : Z
}.

(** An element seen from below, as [getXPath] walks it: its own data, the
    [children] collection of its [parentNode] and, when that parent is an
    element, the parent seen the same way.
    - [Detached]: [parentNode] is [null];
    - [UnderRoot]: [parentNode] is a Document, a ShadowRoot or a fragment,
      so [parentElement] is [null];
    - [Under]: [parentNode] is [parentElement]. *)
Inductive Node : Type :=
| Detached (self : Element)
| UnderRoot (self : Element) (children : list Element)
| Under (self : Element) (children : list Element) (parent : Node).

Definition self (n : Node) : Element :=
  match n with
  | Detached e => e
  | UnderRoot e _ => e
  | Under e _ _ => e
  end.

(** [element.parentNode?.children] *)
Definition parentNode_children (n : Node) : option (list Element) :=
  match n with
  | Detached _ => None
  | UnderRoot _ cs => Some cs
  | Under _ cs _ => Some cs
  end.

(** [element.parentElement] *)
Definition parentElement (n : Node) : option Node :=
  match n with
  | Under _ _ p => Some p
  | _ => None
  end.

Fixpoint getAttribute (name : string) (attrs : list (string * string)) : option string :=
  match attrs with
  | [] => None
  | (n, v) :: rest => if String.eqb n name then Some v else getAttribute name rest
  end.

(** [element.id] reflects the [id] attribute, [""] when it is absent. *)
Definition id (e : Element) : string :=
  match getAttribute "id" (attributes e) with
  | Some v => v
  | None => ""
  end.

(** ASCII whitespace of the DOM standard: TAB, LF, FF, CR, SPACE. *)
Definition is_ascii_whitespace (c : ascii) : bool :=
  (code c =? 9)%nat || (code c =? 10)%nat || (code c =? 12)%nat
  || (code c =? 13)%nat || (code c =? 32)%nat.

(** Split on ASCII whitespace; [cur] is the token being read, reversed. *)
Fixpoint tokens_from (cur : string) (s : string) : list string :=
  match s with
  | EmptyString =>
      match cur with
      | EmptyString => []
      | _ => [string_rev cur]
      end
  | String c rest =>
      if is_ascii_whitespace c then
        match cur with
        | EmptyString => tokens_from EmptyString rest
        | _ => string_rev cur :: tokens_from EmptyString rest
        end
      else tokens_from (String c cur) rest
  end.

Fixpoint ordered_set (seen : list string) (l : list string) : list string :=
  match l with
  | [] => []
  | x :: rest =>
      if existsb (String.eqb x) seen then ordered_set seen rest
      else x :: ordered_set (x :: seen) rest
  end.

(** [element.classList]: the ordered set of tokens of the [class]
    attribute. *)
Definition classList (e : Element) : list string :=
  match getAttribute "class" (attributes e) with
  | Some v => ordered_set [] (tokens_from EmptyString v)
  | None => []
  end.

(** The page a handler runs in: [document.body] (by identity),
    [document.location.href], [window.location.href] and the clock read by
    [Date.now()]. *)
Record Page : Type := mkPage {
  body : option nat;
  document_href : string;
  window_href : string;
  now : Z
}.

(** [element === document.body] *)
Definition is_body (page : Page) (e : Element) : bool :=
  match body page with
  | Some b => (uid e =? b)%nat
  | None => false
  end.

End Dom.

(* ===================================================================== *)
(** ** Messages sent over [chrome.runtime.sendMessage]                    *)
(* ===================================================================== *)

Module Msg.

(** An event of the replay engine. Only scroll events (an incremental
    snapshot whose source is Scroll) are looked into; [data] of a scroll is
    [{id, x, y}]. Every other event is opaque. *)
Inductive RrwebEvent : Type :=
| ScrollEvent (timestamp : Z) (id : Z) (x y : Q)
| OtherEvent (tag : nat).

Record ClickData : Type := mkClickData {
  click_timestamp : Z;
  click_url : string;
  click_frameUrl : string;
  click_xpath : string;
  click_cssSelector : string;
  click_elementTag : string;
  click_elementText : string
}.

Record InputData : Type := mkInputData {
  input_timestamp : Z;
  input_url : string;
  input_frameUrl : string;
  input_xpath : string;
  input_cssSelector : string;
  input_elementTag : string;
  input_value : string
}.

Record SelectData : Type := mkSelectData {
  select_timestamp : Z;
  select_url : string;
  select_frameUrl : string;
  select_xpath : string;
  select_cssSelector : string;
  select_elementTag : string;
  select_selectedValue : option string;
  select_selectedText : string
}.

Record KeyData : Type := mkKeyData {
  key_timestamp : Z;
  key_url : string;
  key_frameUrl : string;
  key_key : string;
  key_xpath : string;
  key_cssSelector : string;
  key_elementTag : string
}.

Inductive Message : Type :=
| RRWEB_EVENT (payload : RrwebEvent)
| CUSTOM_CLICK_EVENT (payload : ClickData)
| CUSTOM_INPUT_EVENT (payload : InputData)
| CUSTOM_SELECT_EVENT (payload : SelectData)
| CUSTOM_KEY_EVENT (payload : KeyData)
| REQUEST_RECORDING_STATUS.

End Msg.

(* ===================================================================== *)
(** ** [extension/src/entrypoints/content.ts]                             *)
(* ===================================================================== *)

Module Content.
Import JS Dom Msg JSNotations.

Definition DEBOUNCE_MS : Z := 500.

Definition SAFE_ATTRIBUTES : list string :=
  [ "id"; "name"; "type"; "placeholder"; "aria-label"; "aria-labelledby";
    "aria-describedby"; "role"; "for"; "autocomplete"; "required";
    "readonly"; "alt"; "title"; "src"; "href"; "target"; "data-id";
    "data-qa"; "data-cy"; "data-testid" ].

(** [SAFE_ATTRIBUTES.has(name)] *)
Definition SAFE_ATTRIBUTES_has (name : string) : bool :=
  existsb (String.eqb name) SAFE_ATTRIBUTES.

(** *** Locators *)

(** The [for] loop of [getXPath] over [siblings], from the current position
    with the current [ix]: [Some ix] when it reaches [element] (the loop
    returns from there), [None] when it runs off the end. *)
Fixpoint siblings_loop (element : Element) (siblings : list Element) (ix : nat)
  : option nat :=
  match siblings with
  | [] => None
  | sibling :: rest =>
      if (uid sibling =? uid element)%nat then Some ix
      else if (nodeType sibling =? 1)%nat && String.eqb (tagName sibling) (tagName element)
           then siblings_loop element rest (S ix)
           else siblings_loop element rest ix
  end.

(** [getXPath(element)]. The recursive call receives
    [element.parentElement]; when that is [null] the callee throws at
    [element.id]. *)
Fixpoint getXPath (page : Page) (element : Node) {struct element} : Completion string :=
  let e := self element in
  if negb (String.eqb (id e) "") then
    Normal ("id(" ++ dquote ++ id e ++ dquote ++ ")")
  else if is_body page e then
    Normal (toLowerCase (tagName e))
  else
    match parentNode_children element with
    | Some siblings =>
        match siblings_loop e siblings 0 with
        | Some ix =>
            parentPath <- match element with
                          | Under _ _ p => getXPath page p
                          | _ => Throw TypeError
                          end ;;
            Normal (parentPath ++ "/" ++ toLowerCase (tagName e)
                      ++ "[" ++ number_to_string (ix + 1) ++ "]")
        | None => Normal (toLowerCase (tagName e))
        end
    | None => Normal (toLowerCase (tagName e))
    end.

(** [/^[a-zA-Z_][a-zA-Z0-9_-]*$/] *)
Definition validClassPattern (className : string) : bool :=
  test_anchored (fun c => is_letter c || is_underscore c)
                (fun c => is_alnum c || is_underscore c || is_hyphen c)
                className.

(** The character class of the test on [attrValue]: single quote, double
    quote, [<], [>], backtick and [\s]. *)
Definition is_selector_breaking (c : ascii) : bool :=
  Ascii.eqb c "'"%char || Ascii.eqb c dquote_char || Ascii.eqb c "<"%char
  || Ascii.eqb c ">"%char || Ascii.eqb c "`"%char || is_regex_space c.

(** The second argument of the [replace] on [attrValue], a single-quoted
    literal holding backslash, double quote. In a string literal that pair
    is the escape sequence for the double quote itself, so the literal
    denotes the one-character string made of a double quote. *)
Definition quote_replacement : string := dquote.

(** Body of [classList.forEach]. *)
Definition class_step (cssSelector className : string) : string :=
  if negb (String.eqb className "") && validClassPattern className
  then cssSelector ++ "." ++ CSS_escape className
  else cssSelector.

(** What one attribute adds to the selector: [None] for each [continue]. *)
Definition attr_fragment (attr : string * string) : option string :=
  let attrName := fst attr in
  let attrValue := snd attr in
  if String.eqb attrName "class" then None
  else if String.eqb (trim attrName) "" then None
  else if negb (SAFE_ATTRIBUTES_has attrName) then None
  else
    let safeAttribute := CSS_escape attrName in
    if String.eqb attrValue "" then
      Some ("[" ++ safeAttribute ++ "]")
    else
      let safeValue := replace_all_char dquote_char quote_replacement attrValue in
      if test_class is_selector_breaking attrValue then
        Some ("[" ++ safeAttribute ++ "*=" ++ dquote ++ safeValue ++ dquote ++ "]")
      else
        Some ("[" ++ safeAttribute ++ "=" ++ dquote ++ safeValue ++ dquote ++ "]").

(** Body of [for (const attr of element.attributes)]. *)
Definition attr_step (cssSelector : string) (attr : string * string) : string :=
  match attr_fragment attr with
  | Some fragment => cssSelector ++ fragment
  | None => cssSelector
  end.

(** [getEnhancedCSSSelector(element, xpath)] *)
Definition getEnhancedCSSSelector (element : Element) (xpath : string) : string :=
  let cssSelector := toLowerCase (tagName element) in
  let cssSelector :=
    if (0 <? List.length (classList element))%nat
    then fold_left class_step (classList element) cssSelector
    else cssSelector in
  fold_left attr_step (attributes element) cssSelector.

(** *** Module state and the outside world it acts on *)

Inductive Direction : Type := up | down.

Definition Direction_eqb (a b : Direction) : bool :=
  match a, b with
  | up, up | down, down => true
  | _, _ => false
  end.

(** The function returned by [rrweb.record]: calling it stops that engine. *)
Inductive StopHandle : Type := StopEngine.

(** The module-level variables, and the three things the script acts on:
    [engines] counts the replay-engine instances that are recording,
    [listenersAttached] says whether [attachListenersToNode(document)] has
    run, and [outbox] lists the messages handed to
    [chrome.runtime.sendMessage], oldest first.  [scrollTimeout] holds, for
    the armed debounce timer, the payload its callback will send. *)
Record State : Type := mkState {
  stopRecording : option StopHandle;
  isRecordingActive : bool;
  scrollTimeout : option RrwebEvent;
  lastScrollY : option Q;
  lastDirection : option Direction;
  engines : nat;
  listenersAttached : bool;
  shadowObservers : nat;
  outbox : list Message
}.

Definition initialState : State :=
  {| stopRecording := None;
     isRecordingActive := true;
     scrollTimeout := None;
     lastScrollY := None;
     lastDirection := None;
     engines := 0;
     listenersAttached := false;
     shadowObservers := 0;
     outbox := [] |}.

Definition sendMessage (m : Message) (st : State) : State :=
  {| stopRecording := stopRecording st;
     isRecordingActive := isRecordingActive st;
     scrollTimeout := scrollTimeout st;
     lastScrollY := lastScrollY st;
     lastDirection := lastDirection st;
     engines := engines st;
     listenersAttached := listenersAttached st;
     shadowObservers := shadowObservers st;
     outbox := outbox st ++ [m] |}.

Definition set_scroll (timeout : option RrwebEvent) (y : option Q)
           (direction : option Direction) (st : State) : State :=
  {| stopRecording := stopRecording st;
     isRecordingActive := isRecordingActive st;
     scrollTimeout := timeout;
     lastScrollY := y;
     lastDirection := direction;
     engines := engines st;
     listenersAttached := listenersAttached st;
     shadowObservers := shadowObservers st;
     outbox := outbox st |}.

(** *** Recorder lifecycle *)

Definition startRecorder (st : State) : State :=
  match stopRecording st with
  | Some _ => st
  | None =>
      {| stopRecording := Some StopEngine;
         isRecordingActive := true;
         scrollTimeout := scrollTimeout st;
         lastScrollY := lastScrollY st;
         lastDirection := lastDirection st;
         engines := S (engines st);
         listenersAttached := true;
         shadowObservers := S (shadowObservers st);
         outbox := outbox st |}
  end.

Definition stopRecorder (st : State) : State :=
  match stopRecording st with
  | Some StopEngine =>
      {| stopRecording := None;
         isRecordingActive := false;
         scrollTimeout := scrollTimeout st;
         lastScrollY := lastScrollY st;
         lastDirection := lastDirection st;
         engines := pred (engines st);
         listenersAttached := listenersAttached st;
         shadowObservers := shadowObservers st;
         outbox := outbox st |}
  | None => st
  end.

(** [{ ...event, data: roundedScrollData }] *)
Definition rounded (timestamp id : Z) (x y : Q) : RrwebEvent :=
  ScrollEvent timestamp id (inject_Z (Math_round x)) (inject_Z (Math_round y)).

(** [a > b] on numbers. *)
Definition gt (a b : Q) : bool := negb (Qle_bool a b).

(** The [emit] callback given to [rrweb.record]. *)
Definition emit (event : RrwebEvent) (st : State) : State :=
  if negb (isRecordingActive st) then st
  else
    match event with
    | ScrollEvent timestamp id x y =>
        let roundedEvent := rounded timestamp id x y in
        let currentDirection :=
          match lastScrollY st with
          | Some last => Some (if gt y last then down else up)
          | None => None
          end in
        let reversal :=
          match lastDirection st, currentDirection with
          | Some l, Some c => negb (Direction_eqb c l)
          | _, _ => false
          end in
        if reversal then
          (* clearTimeout, scrollTimeout = null, send, then the two updates *)
          set_scroll None (Some y) currentDirection
            (sendMessage (RRWEB_EVENT roundedEvent) st)
        else
          (* the two updates, clearTimeout, then a new timer *)
          set_scroll (Some roundedEvent) (Some y) currentDirection st
    | OtherEvent _ => sendMessage (RRWEB_EVENT event) st
    end.

(** The callback of the debounce timer. It runs only for the timer that is
    still armed, the one [scrollTimeout] refers to. *)
Definition scrollTimerFires (st : State) : State :=
  match scrollTimeout st with
  | Some payload =>
      set_scroll None (lastScrollY st) None (sendMessage (RRWEB_EVENT payload) st)
  | None => st
  end.

(** *** Capture handlers *)

(** A DOM event, as far as the handlers read it: [composedPath0] is
    [event.composedPath()[0]] ([None] when the path is empty). The entry,
    when there is one, is an element. *)
Record DomEvent : Type := mkDomEvent {
  composedPath0 : option Node;
  key : string;
  ctrlKey : bool;
  metaKey : bool
}.

Definition handleCustomClick (page : Page) (event : DomEvent) (st : State)
  : Completion State :=
  if negb (isRecordingActive st) then Normal st
  else
    match composedPath0 event with
    | None => Normal st
    | Some targetElement =>
        try_catch
          (xpath <- getXPath page targetElement ;;
           let clickData :=
             {| click_timestamp := now page;
                click_url := document_href page;
                click_frameUrl := window_href page;
                click_xpath := xpath;
                click_cssSelector := getEnhancedCSSSelector (self targetElement) xpath;
                click_elementTag := tagName (self targetElement);
                click_elementText := slice0 200 (trim (textContent (self targetElement))) |} in
           Normal (sendMessage (CUSTOM_CLICK_EVENT clickData) st))
          (fun _ => Normal st)
    end.

Definition PASSWORD_MASK : string := "********".

Definition handleInput (page : Page) (event : DomEvent) (st : State)
  : Completion State :=
  if negb (isRecordingActive st) then Normal st
  else
    match composedPath0 event with
    | None => Normal st
    | Some targetElement =>
        match value (self targetElement) with
        | None => Normal st
        | Some targetValue =>
            let isPassword :=
              match type (self targetElement) with
              | Some t => String.eqb t "password"
              | None => false
              end in
            try_catch
              (xpath <- getXPath page targetElement ;;
               let inputData :=
                 {| input_timestamp := now page;
                    input_url := document_href page;
                    input_frameUrl := window_href page;
                    input_xpath := xpath;
                    input_cssSelector := getEnhancedCSSSelector (self targetElement) xpath;
                    input_elementTag := tagName (self targetElement);
                    input_value := if isPassword then PASSWORD_MASK else targetValue |} in
               Normal (sendMessage (CUSTOM_INPUT_EVENT inputData) st))
              (fun _ => Normal st)
        end
    end.

(** [targetElement.options[targetElement.selectedIndex]], then its [text]
    or [""] when there is no such option. *)
Definition selectedText (e : Element) : string :=
  if (selectedIndex e <? 0)%Z then ""
  else
    match nth_error (options e) (Z.to_nat (selectedIndex e)) with
    | Some text => text
    | None => ""
    end.

Definition handleSelectChange (page : Page) (event : DomEvent) (st : State)
  : Completion State :=
  if negb (isRecordingActive st) then Normal st
  else
    match composedPath0 event with
    | None => Normal st
    | Some targetElement =>
        if negb (String.eqb (tagName (self targetElement)) "SELECT") then Normal st
        else
          try_catch
            (xpath <- getXPath page targetElement ;;
             let selectData :=
               {| select_timestamp := now page;
                  select_url := document_href page;
                  select_frameUrl := window_href page;
                  select_xpath := xpath;
                  select_cssSelector := getEnhancedCSSSelector (self targetElement) xpath;
                  select_elementTag := tagName (self targetElement);
                  select_selectedValue := value (self targetElement);
                  select_selectedText := selectedText (self targetElement) |} in
             Normal (sendMessage (CUSTOM_SELECT_EVENT selectData) st))
            (fun _ => Normal st)
    end.

Definition CAPTURED_KEYS : list string :=
  [ "Enter"; "Tab"; "Escape"; "ArrowUp"; "ArrowDown"; "ArrowLeft";
    "ArrowRight"; "Home"; "End"; "PageUp"; "PageDown"; "Backspace";
    "Delete" ].

Definition CAPTURED_KEYS_has (k : string) : bool :=
  existsb (String.eqb k) CAPTURED_KEYS.

(** The value of [keyToLog] after the [if] / [else if]. *)
Definition keyToLog (event : DomEvent) : string :=
  if CAPTURED_KEYS_has (key event) then key event
  else if (ctrlKey event || metaKey event)
          && (String.length (key event) =? 1)%nat
          && test_class is_alnum (key event)
       then "CmdOrCtrl+" ++ toUpperCase (key event)
  else "".

(** The first [try] of [handleKeydown]: the three locals after it. The
    target, when there is one, is an element, so its [tagName] is a string
    and the [typeof] test passes. The assignments run in order and
    [getXPath] is the first, so a throw leaves all three at their initial
    values. *)
Definition key_locators (page : Page) (target : option Node)
  : string * string * string :=
  match target with
  | Some targetElement =>
      match getXPath page targetElement with
      | Normal xpath =>
          (xpath, getEnhancedCSSSelector (self targetElement) xpath,
           tagName (self targetElement))
      | Throw _ => ("", "", "document")
      end
  | None => ("", "", "document")
  end.

Definition handleKeydown (page : Page) (event : DomEvent) (st : State)
  : Completion State :=
  if negb (isRecordingActive st) then Normal st
  else
    let keyToLog := keyToLog event in
    if negb (String.eqb keyToLog "") then
      let '(xpath, cssSelector, elementTag) := key_locators page (composedPath0 event) in
      try_catch
        (let keyData :=
           {| key_timestamp := now page;
              key_url := document_href page;
              key_frameUrl := window_href page;
              key_key := keyToLog;
              key_xpath := xpath;
              key_cssSelector := cssSelector;
              key_elementTag := elementTag |} in
         Normal (sendMessage (CUSTOM_KEY_EVENT keyData) st))
        (fun _ => Normal st)
    else Normal st.

(** *** [main] and what can happen afterwards *)

(** The listener registered with [chrome.runtime.onMessage], on a
    [SET_RECORDING_STATUS] message. *)
Definition onSetRecordingStatus (shouldBeRecording : bool) (st : State) : State :=
  if shouldBeRecording && negb (isRecordingActive st) then startRecorder st
  else if negb shouldBeRecording && isRecordingActive st then stopRecorder st
  else st.

(** The callback of the [REQUEST_RECORDING_STATUS] request; [response] is
    [None] for a missing response, otherwise its [isRecordingEnabled]. *)
Definition onStatusResponse (response : option bool) (st : State) : State :=
  match response with
  | Some true => startRecorder st
  | _ => stopRecorder st
  end.

(** [main]: what runs at load, the request for the initial status. *)
Definition main (st : State) : State := sendMessage REQUEST_RECORDING_STATUS st.

Definition loaded : State := main initialState.

Inductive Action : Type :=
| SetRecordingStatus (payload : bool)
| StatusResponse (response : option bool)
| BeforeUnload
| EngineEmit (event : RrwebEvent)
| ScrollTimer
| Click (page : Page) (event : DomEvent)
| Input (page : Page) (event : DomEvent)
| Change (page : Page) (event : DomEvent)
| Keydown (page : Page) (event : DomEvent).

(** One turn of the event loop. DOM events reach the handlers once the
    listeners are attached; the engine can call [emit] once it has been
    started. [ScrollTimer] is the debounce timer firing, [DEBOUNCE_MS] after
    it was armed: two emissions with no [ScrollTimer] between them fall
    within one quiet period. *)
Definition dispatch (a : Action) (st : State) : Completion State :=
  match a with
  | SetRecordingStatus payload => Normal (onSetRecordingStatus payload st)
  | StatusResponse response => Normal (onStatusResponse response st)
  | BeforeUnload => Normal (stopRecorder st)
  | EngineEmit event => Normal (if listenersAttached st then emit event st else st)
  | ScrollTimer => Normal (scrollTimerFires st)
  | Click page event => if listenersAttached st then handleCustomClick page event st else Normal st
  | Input page event => if listenersAttached st then handleInput page event st else Normal st
  | Change page event => if listenersAttached st then handleSelectChange page event st else Normal st
  | Keydown page event => if listenersAttached st then handleKeydown page event st else Normal st
  end.

Fixpoint run (actions : list Action) (st : State) : Completion State :=
  match actions with
  | [] => Normal st
  | a :: rest => st' <- dispatch a st ;; run rest st'
  end.

(** The RecordingSession invariant: the stop handle is there exactly when
    an engine is recording, and the active flag agrees with it. *)
Definition handle_matches_engine (st : State) : Prop :=
  (stopRecording st <> None <-> engines st = 1%nat)
  /\ (stopRecording st = None <-> engines st = 0%nat).

Definition flag_matches_handle (st : State) : Prop :=
  isRecordingActive st = true <-> stopRecording st <> None.

Definition session_invariant (st : State) : Prop :=
  handle_matches_engine st /\ flag_matches_handle st.

End Content.

(* ===================================================================== *)
(** ** The other variant of the content script                            *)
(* ===================================================================== *)

Module Part000.
Import JS Dom Msg JSNotations.

(** *** Locators *)

(** The same loop as in [Content]. *)
Fixpoint siblings_loop (element : Element) (siblings : list Element) (ix : nat)
  : option nat :=
  match siblings with
  | [] => None
  | sibling :: rest =>
      if (uid sibling =? uid element)%nat then Some ix
      else if (nodeType sibling =? 1)%nat && String.eqb (tagName sibling) (tagName element)
           then siblings_loop element rest (S ix)
           else siblings_loop element rest ix
  end.

(** [getXPath(element)] for an element that is there. A [tagName] is falsy
    exactly when it is the empty string. *)
Fixpoint getXPath_element (page : Page) (element : Node) {struct element}
  : Completion string :=
  let e := self element in
  if String.eqb (tagName e) "" then Normal "unknown"
  else if negb (String.eqb (id e) "") then
    Normal ("id(" ++ dquote ++ id e ++ dquote ++ ")")
  else if is_body page e then
    Normal (toLowerCase (tagName e))
  else
    match parentNode_children element with
    | Some siblings =>
        match siblings_loop e siblings 0 with
        | Some ix =>
            parentPath <- match element with
                          | Under _ _ p => getXPath_element page p
                          | _ => Normal "unknown"
                          end ;;
            Normal (parentPath ++ "/" ++ toLowerCase (tagName e)
                      ++ "[" ++ number_to_string (ix + 1) ++ "]")
        | None => Normal (toLowerCase (tagName e))
        end
    | None => Normal (toLowerCase (tagName e))
    end.

(** [getXPath(element)], [element] possibly [null]. *)
Definition getXPath (page : Page) (element : option Node) : Completion string :=
  match element with
  | None => Normal "unknown"
  | Some n => getXPath_element page n
  end.

Definition class_step (selector className : string) : string :=
  if negb (String.eqb className "") then selector ++ "." ++ CSS_escape className
  else selector.

Definition attr_step (selector : string) (attr : string * string) : string :=
  if negb (String.eqb (fst attr) "class") && negb (String.eqb (snd attr) "") then
    selector ++ "[" ++ CSS_escape (fst attr) ++ "=" ++ dquote
             ++ CSS_escape (snd attr) ++ dquote ++ "]"
  else selector.

(** [getEnhancedCSSSelector(element, xpath)], [element] possibly [null]. *)
Definition getEnhancedCSSSelector (element : option Element) (xpath : string) : string :=
  match element with
  | None => "unknown"
  | Some e =>
      if String.eqb (tagName e) "" then "unknown"
      else
        let selector := toLowerCase (tagName e) in
        let selector :=
          if (0 <? List.length (classList e))%nat
          then fold_left class_step (classList e) selector
          else selector in
        fold_left attr_step (attributes e) selector
  end.

(** *** Capture handlers *)

Record State : Type := mkState {
  isRecordingActive : bool;
  outbox : list Message
}.

Definition sendMessage (m : Message) (st : State) : State :=
  {| isRecordingActive := isRecordingActive st; outbox := outbox st ++ [m] |}.

(** A DOM event: [target] is [event.target]; [resolvedInputTarget] is the
    element [resolveInputTarget(event)] returns, taken as given (the search
    through shadow roots is not modelled). *)
Record DomEvent : Type := mkDomEvent {
  target : option Node;
  resolvedInputTarget : option Node;
  key : string
}.

Definition handleCustomClick (page : Page) (event : DomEvent) (st : State)
  : Completion State :=
  if negb (isRecordingActive st) then Normal st
  else
    match target event with
    | None => Normal st
    | Some t =>
        xpath <- getXPath page (Some t) ;;
        xpath' <- getXPath page (Some t) ;;
        Normal (sendMessage
                  (CUSTOM_CLICK_EVENT
                     {| click_timestamp := now page;
                        click_url := window_href page;
                        click_frameUrl := window_href page;
                        click_xpath := xpath;
                        click_cssSelector := getEnhancedCSSSelector (Some (self t)) xpath';
                        click_elementTag := tagName (self t);
                        click_elementText := slice0 200 (trim (textContent (self t))) |})
                  st)
    end.

Definition handleInput (page : Page) (event : DomEvent) (st : State)
  : Completion State :=
  if negb (isRecordingActive st) then Normal st
  else
    match resolvedInputTarget event with
    | None => Normal st
    | Some t =>
        match value (self t) with
        | None => Normal st
        | Some targetValue =>
            xpath <- getXPath page (Some t) ;;
            xpath' <- getXPath page (Some t) ;;
            Normal (sendMessage
                      (CUSTOM_INPUT_EVENT
                         {| input_timestamp := now page;
                            input_url := window_href page;
                            input_frameUrl := window_href page;
                            input_xpath := xpath;
                            input_cssSelector := getEnhancedCSSSelector (Some (self t)) xpath';
                            input_elementTag := tagName (self t);
                            input_value :=
                              match type (self t) with
                              | Some "password" => "********"
                              | _ => targetValue
                              end |})
                      st)
        end
    end.

Definition handleKeydown (page : Page) (event : DomEvent) (st : State)
  : Completion State :=
  if negb (isRecordingActive st) then Normal st
  else
    match resolvedInputTarget event with
    | None => Normal st
    | Some t =>
        xpath <- getXPath page (Some t) ;;
        xpath' <- getXPath page (Some t) ;;
        Normal (sendMessage
                  (CUSTOM_KEY_EVENT
                     {| key_timestamp := now page;
                        key_url := window_href page;
                        key_frameUrl := window_href page;
                        key_key := key event;
                        key_xpath := xpath;
                        key_cssSelector := getEnhancedCSSSelector (Some (self t)) xpath';
                        key_elementTag := tagName (self t) |})
                  st)
    end.

End Part000.

(* ===================================================================== *)
(** ** Listener attachment of [content.ts]                                *)
(* ===================================================================== *)

Module Listeners.

#[local] Set Warnings "-register-all".

(** The tree below a node, as [attachListenersToNode] walks it. An element
    has an identity, possibly a shadow root ([el.shadowRoot], [None] when
    there is none or it is closed) and child elements. A root (the document
    or a shadow root) has an identity and child elements. *)
Inductive Tree : Type :=
| El (uid : nat) (shadowRoot : option Root) (children : list Tree)
with Root : Type :=
| Rt (rid : nat) (children : list Tree).

Definition shadowRoot_of (t : Tree) : option Root :=
  match t with El _ sr _ => sr end.

Definition rid_of (r : Root) : nat :=
  match r with Rt i _ => i end.

Definition children_of (r : Root) : list Tree :=
  match r with Rt _ cs => cs end.

(** The elements below an element, in document order; the ones inside its
    shadow root are not among them. *)
Fixpoint descendants (t : Tree) : list Tree :=
  match t with
  | El _ _ cs => flat_map (fun c => c :: descendants c) cs
  end.

(** [node.querySelectorAll("*")] *)
Definition querySelectorAll_star (node : Root) : list Tree :=
  flat_map (fun c => c :: descendants c) (children_of node).

(** The eight event types, each with its one handler, all capturing. *)
Definition EVENT_TYPES : list string :=
  [ "click"; "input"; "change"; "keydown"; "mouseover"; "mouseout"; "focus"; "blur" ].

(** The event listener lists of all targets: who listens to what. The
    handler of each type is one module-level function and every listener is
    capturing, so target and type identify a listener. *)
Definition listens (target : nat) (type : string) (registry : list (nat * string)) : bool :=
  existsb (fun l => (fst l =? target)%nat && String.eqb (snd l) type) registry.

(** [target.addEventListener(type, handler, true)]: a listener that is
    already on the list is not added again. *)
Definition addEventListener (target : nat) (type : string) (registry : list (nat * string))
  : list (nat * string) :=
  if listens target type registry then registry else registry ++ [(target, type)].

(** [attachListenersToNode(node)]. [fuel] bounds the depth of the recursion
    into shadow roots; [None] when it runs out. *)
Fixpoint attachListenersToNode (fuel : nat) (node : Root) (registry : list (nat * string))
  : option (list (nat * string)) :=
  match fuel with
  | O => None
  | S fuel' =>
      let registry :=
        fold_left (fun r type => addEventListener (rid_of node) type r) EVENT_TYPES registry in
      fold_left
        (fun acc el =>
           match acc with
           | None => None
           | Some r =>
               match shadowRoot_of el with
               | Some root => attachListenersToNode fuel' root r
               | None => Some r
               end
           end)
        (querySelectorAll_star node) (Some registry)
  end.

(** A node a mutation record lists as added: an HTML element, or any other
    node (a text node, a comment, an element that is not an HTML element). *)
Inductive AddedNode : Type :=
| HtmlElement (t : Tree)
| OtherNode.

(** The callback of the mutation observer, on the added nodes of all the
    records it is given. *)
Definition onMutations (fuel : nat) (mutations : list (list AddedNode))
           (registry : list (nat * string)) : option (list (nat * string)) :=
  fold_left
    (fun acc node =>
       match acc with
       | None => None
       | Some r =>
           match node with
           | HtmlElement t =>
               match shadowRoot_of t with
               | Some root => attachListenersToNode fuel root r
               | None => Some r
               end
           | OtherNode => Some r
           end
       end)
    (concat mutations) (Some registry).

(** How deep shadow roots are nested below a root, the root itself
    counted. *)
Fixpoint tree_depth (t : Tree) : nat :=
  match t with
  | El _ sr cs =>
      Nat.max
        (match sr with
         | Some (Rt _ scs) => S (list_max (map tree_depth scs))
         | None => 0
         end)
        (list_max (map tree_depth cs))
  end.

Definition root_depth (r : Root) : nat :=
  S (list_max (map tree_depth (children_of r))).

(** [inner] is [outer] or a shadow root nested in it, at any depth: the
    shadow root of an element below [outer], or nested in such a shadow
    root. *)
Inductive nested : Root -> Root -> Prop :=
| nested_here (outer : Root) : nested outer outer
| nested_below (outer middle inner : Root) (el : Tree) :
    In el (querySelectorAll_star outer) ->
    shadowRoot_of el = Some middle ->
    nested middle inner ->
    nested outer inner.

(** A listener that attaching to [node] is to put in place: one of the
    eight types, on [node] or on a shadow root nested in it. *)
Definition covered (node : Root) (l : nat * string) : Prop :=
  exists r, nested node r /\ fst l = rid_of r /\ In (snd l) EVENT_TYPES.

(** What one call with [fuel] does, on every root that is not nested deeper
    than [fuel]: it ends, the listeners afterwards are the ones before and
    the covered ones, no listener is there twice if none was, and nothing
    changes when the covered ones were all there. *)
Definition attach_outcome (fuel : nat) : Prop :=
  forall (node : Root) (registry : list (nat * string)),
    (root_depth node <= fuel)%nat ->
    exists registry',
      attachListenersToNode fuel node registry = Some registry'
      /\ (forall l, In l registry' <-> In l registry \/ covered node l)
      /\ (NoDup registry -> NoDup registry')
      /\ ((forall l, covered node l -> In l registry) -> registry' = registry).

(** The HTML elements among added nodes. *)
Fixpoint html_elements (nodes : list AddedNode) : list Tree :=
  match nodes with
  | [] => []
  | HtmlElement t :: rest => t :: html_elements rest
  | OtherNode :: rest => html_elements rest
  end.

(** Induction on an element through its child elements. *)
Section TreeInduction.

Variable P : Tree -> Prop.
Hypothesis step : forall u sr cs, Forall P cs -> P (El u sr cs).

Fixpoint Tree_children_ind (t : Tree) : P t :=
  match t with
  | El u sr cs =>
      step u sr cs
        ((fix all (l : list Tree) : Forall P l :=
            match l with
            | [] => Forall_nil P
            | x :: rest => Forall_cons x (Tree_children_ind x) (all rest)
            end) cs)
  end.

End TreeInduction.

End Listeners.

(* ===================================================================== *)
(** ** The specification's wording, for comparison with the code          *)
(* ===================================================================== *)

Module Spec.
Import JS Dom Msg.

Definition join (fragments : list string) : string :=
  fold_right String.append EmptyString fragments.

(** The same-tag sibling index: one more than the number of preceding
    element siblings that share the element's tag name. *)
Definition same_tag_index (element : Element) (preceding : list Element) : nat :=
  List.length
    (filter (fun s => (nodeType s =? 1)%nat && String.eqb (tagName s) (tagName element))
            preceding)
  + 1.

(** A class-selector fragment. *)
Definition class_fragment (className : string) : string := "." ++ className.

(** The three shapes of an attribute fragment. *)
Definition presence_only (name : string) : string := "[" ++ name ++ "]".

Definition substring_match (name value : string) : string :=
  "[" ++ name ++ "*=" ++ dquote ++ value ++ dquote ++ "]".

Definition exact_match (name value : string) : string :=
  "[" ++ name ++ "=" ++ dquote ++ value ++ dquote ++ "]".

(** An attribute that gets a fragment: not [class], a name that is not
    blank, a name of the allow-list. *)
Definition in_allow_list (attr : string * string) : bool :=
  negb (String.eqb (fst attr) "class")
  && negb (String.eqb (trim (fst attr)) "")
  && Content.SAFE_ATTRIBUTES_has (fst attr).

(** Empty value: presence only. A value with a quote, an angle bracket, a
    backtick or whitespace: substring match. Otherwise: exact match. *)
Definition attribute_fragment (attr : string * string) : string :=
  if String.eqb (snd attr) "" then presence_only (fst attr)
  else if test_class Content.is_selector_breaking (snd attr)
       then substring_match (fst attr) (snd attr)
       else exact_match (fst attr) (snd attr).

(** The selector as the specification builds it: the lowercase tag name,
    one class fragment per class that matches the safe identifier pattern,
    one attribute fragment per allow-listed attribute. *)
Definition computeCssSelector (element : Element) : string :=
  toLowerCase (tagName element)
  ++ join (map class_fragment (filter Content.validClassPattern (classList element)))
  ++ join (map attribute_fragment (filter in_allow_list (attributes element))).

(** [contains needle s]: [needle] occurs in [s]. *)
Definition contains (needle s : string) : bool :=
  match index 0 needle s with
  | Some _ => true
  | None => false
  end.

(** Reading a double-quoted CSS string from just after its opening quote:
    a backslash takes the next code unit with it, an unescaped quote closes
    the string, an unescaped newline makes it a bad string. The result is
    what follows the closing quote. *)
Fixpoint after_closing_quote (s : string) : option string :=
  match s with
  | EmptyString => None
  | String c rest =>
      if Ascii.eqb c dquote_char then Some rest
      else if Ascii.eqb c backslash_char then
        match rest with
        | EmptyString => None
        | String _ rest' => after_closing_quote rest'
        end
      else if (code c =? 10)%nat || (code c =? 12)%nat || (code c =? 13)%nat then None
      else after_closing_quote rest
  end.

(** Everything from the first double quote of [s] on, without that quote. *)
Fixpoint after_opening_quote (s : string) : option string :=
  match s with
  | EmptyString => None
  | String c rest =>
      if Ascii.eqb c dquote_char then Some rest else after_opening_quote rest
  end.

(** The quoted value of an attribute fragment is intact when the string
    that opens at the first quote closes right before the final bracket. A
    fragment with no quote at all has no value to break. *)
Definition quoted_value_intact (fragment : string) : bool :=
  match after_opening_quote fragment with
  | None => true
  | Some body =>
      match after_closing_quote body with
      | Some tail => String.eqb tail "]"
      | None => false
      end
  end.

(** A code unit that needs no escaping inside a double-quoted string. *)
Definition plain_value_char (c : ascii) : bool :=
  negb (Ascii.eqb c dquote_char) && negb (Ascii.eqb c backslash_char)
  && negb ((code c =? 10)%nat || (code c =? 12)%nat || (code c =? 13)%nat).

(** Two elements that differ at most in the contents of their [value]
    property: the element with those contents blanked. *)
Definition blank_value (e : Element) : Element :=
  {| uid := uid e;
     nodeType := nodeType e;
     tagName := tagName e;
     attributes := attributes e;
     type := type e;
     value := match value e with Some _ => Some "" | None => None end;
     textContent := textContent e;
     options := options e;
     selectedIndex := selectedIndex e |}.

Fixpoint blank_values (n : Node) : Node :=
  match n with
  | Detached e => Detached (blank_value e)
  | UnderRoot e cs => UnderRoot (blank_value e) (map blank_value cs)
  | Under e cs p => Under (blank_value e) (map blank_value cs) (blank_values p)
  end.

(** Same page apart from what was typed into form controls. *)
Definition same_but_typed_text (n1 n2 : Node) : Prop :=
  blank_values n1 = blank_values n2.

(** The navigational and control keys that are logged verbatim. *)
Definition control_keys : list string :=
  [ "Enter"; "Tab"; "Escape";
    "ArrowUp"; "ArrowDown"; "ArrowLeft"; "ArrowRight";
    "Home"; "End"; "PageUp"; "PageDown"; "Backspace"; "Delete" ].

(** Ctrl or Meta held with a key that is one alphanumeric character. *)
Definition modifier_with_alnum (event : Content.DomEvent) (c : ascii) : Prop :=
  (Content.ctrlKey event = true \/ Content.metaKey event = true)
  /\ Content.key event = String c EmptyString
  /\ is_alnum c = true.

(** The direction of a scroll to height [y] when the last one was at
    [last]. *)
Definition direction_of (last y : Q) : Content.Direction :=
  if Content.gt y last then Content.down else Content.up.

(** A scroll to [y] reverses when a direction is being tracked and the
    direction of this scroll differs from it. *)
Definition reverses (st : Content.State) (y : Q) : bool :=
  match Content.lastDirection st, Content.lastScrollY st with
  | Some tracked, Some last => negb (Content.Direction_eqb (direction_of last y) tracked)
  | _, _ => false
  end.

(** The direction tracked after a scroll to [y]. *)
Definition direction_after (st : Content.State) (y : Q) : option Content.Direction :=
  match Content.lastScrollY st with
  | Some last => Some (direction_of last y)
  | None => None
  end.

(** A state the script can be in: one reached from the state after load
    by some sequence of turns of the event loop. *)
Definition reachable (st : Content.State) : Prop :=
  exists actions, Content.run actions Content.loaded = Normal st.

(** The lifecycle part of a state. *)
Definition session_view (st : Content.State)
  : option Content.StopHandle * nat * bool * bool :=
  (Content.stopRecording st, Content.engines st, Content.isRecordingActive st,
   Content.listenersAttached st).

(** What does hold in every state the script can be in: the handle matches
    the engine; the flag is on whenever the handle is there; once the
    recorder has been started the flag agrees with the handle; before the
    first start the flag is on although there is no handle. *)
Definition session_facts (st : Content.State) : Prop :=
  Content.handle_matches_engine st
  /\ (Content.stopRecording st <> None -> Content.isRecordingActive st = true)
  /\ (Content.listenersAttached st = true -> Content.flag_matches_handle st)
  /\ (Content.listenersAttached st = false ->
      Content.stopRecording st = None /\ Content.isRecordingActive st = true).

(** [element] is one of [siblings], by identity. *)
Definition among (element : Element) (siblings : list Element) : bool :=
  existsb (fun s => (uid s =? uid element)%nat) siblings.

(** Walking up from the element through elements that have no id and are
    not the body, each one a child of its parent node, one arrives at an
    element whose parent node is not an element. *)
Fixpoint runs_off_the_top (page : Page) (n : Node) : bool :=
  if negb (String.eqb (id (self n)) "") then false
  else if is_body page (self n) then false
  else
    match n with
    | Detached _ => false
    | UnderRoot e cs => among e cs
    | Under e cs p => among e cs && runs_off_the_top page p
    end.

(** The element and all its ancestors have a tag name. *)
Fixpoint tag_names_present (n : Node) : bool :=
  negb (String.eqb (tagName (self n)) "")
  && match n with
     | Under _ _ p => tag_names_present p
     | _ => true
     end.

(** A turn of the event loop that is a DOM event, an emission of the
    replay engine or the debounce timer: anything but a lifecycle command. *)
Definition is_capture_or_timer (a : Content.Action) : bool :=
  match a with
  | Content.SetRecordingStatus _ | Content.StatusResponse _ | Content.BeforeUnload => false
  | _ => true
  end.

(** A message of one of the four capture handlers. *)
Definition is_custom (m : Message) : bool :=
  match m with
  | CUSTOM_CLICK_EVENT _ | CUSTOM_INPUT_EVENT _
  | CUSTOM_SELECT_EVENT _ | CUSTOM_KEY_EVENT _ => true
  | _ => false
  end.

(** A scroll event whose coordinates are whole numbers; any other event of
    the replay engine. *)
Definition whole (q : Q) : Prop := exists z : Z, q = inject_Z z.

Definition scroll_is_rounded (event : RrwebEvent) : Prop :=
  match event with
  | ScrollEvent _ _ x y => whole x /\ whole y
  | OtherEvent _ => True
  end.

End Spec.

(* ===================================================================== *)
(** ** Fixtures used by the examples                                      *)
(* ===================================================================== *)

Module Fixtures.
Import JS Dom Msg.

Definition element (u : nat) (tag : string) (attrs : list (string * string)) : Element :=
  {| uid := u; nodeType := 1; tagName := tag; attributes := attrs;
     type := None; value := None; textContent := ""; options := [];
     selectedIndex := (-1)%Z |}.

(** A page whose body has uid 1. *)
Definition page : Page :=
  {| body := Some 1%nat; document_href := "https://example.test/";
     window_href := "https://example.test/"; now := 0%Z |}.

Definition html : Element := element 0 "HTML" [].
Definition head : Element := element 2 "HEAD" [].
Definition body_element : Element := element 1 "BODY" [].

Definition html_node : Node := UnderRoot html [html].
Definition body_node : Node := Under body_element [head; body_element] html_node.

(** Three sibling [div]s without ids, children of the body. *)
Definition div1 : Element := element 11 "DIV" [].
Definition div2 : Element := element 12 "DIV" [].
Definition div3 : Element := element 13 "DIV" [].
Definition third_div : Node := Under div3 [div1; div2; div3] body_node.

(** [<button class="btn primary" onclick="alert(1)">] *)
Definition button : Element :=
  element 21 "BUTTON" [("class", "btn primary"); ("onclick", "alert(1)")].

(** An input whose [data-testid] is [a], a double quote, [b]. *)
Definition quoted_testid : string := "a" ++ dquote ++ "b".
Definition testid_input : Element :=
  element 22 "INPUT" [("data-testid", quoted_testid)].

(** An element whose tag data is one space. *)
Definition blank_tag : Element := element 23 " " [].

(** An input inside a shadow root: its parent node is the root, it has no
    parent element. *)
Definition shadow_input : Element :=
  {| uid := 31; nodeType := 1; tagName := "INPUT"; attributes := [("type", "password")];
     type := Some "password"; value := Some "hunter2"; textContent := "";
     options := []; selectedIndex := (-1)%Z |}.
Definition shadow_input_node : Node := UnderRoot shadow_input [shadow_input].

Definition keydown (target : option Node) (k : string) (ctrl meta : bool)
  : Content.DomEvent :=
  {| Content.composedPath0 := target; Content.key := k;
     Content.ctrlKey := ctrl; Content.metaKey := meta |}.

(** A scroll event of the replay engine at height [y]. *)
Definition scroll (y : Q) : RrwebEvent := ScrollEvent 0%Z 1%Z 0%Q y.

(** A state in which the recorder runs and nothing has been sent. *)
Definition recording : Content.State :=
  Content.startRecorder Content.initialState.

(** Recording was started at load, one scroll was buffered, then a stop
    command arrived: the debounce timer is still armed. *)
Definition stop_with_pending_scroll : list Content.Action :=
  [ Content.StatusResponse (Some true);
    Content.EngineEmit (scroll 10);
    Content.SetRecordingStatus false ].

Definition stopped_with_pending_scroll : Content.State :=
  Content.stopRecorder
    (Content.emit (scroll 10) (Content.startRecorder Content.loaded)).

(** Scrolls down to 10 and 20, then back up to 15. *)
Definition scrolled_down_twice : Content.State :=
  Content.emit (scroll 20) (Content.emit (scroll 10) recording).

(** A password field in the body holding [typed]. *)
Definition password_field (typed : string) : Element :=
  {| uid := 41; nodeType := 1; tagName := "INPUT";
     attributes := [("type", "password"); ("name", "pw")];
     type := Some "password"; value := Some typed; textContent := "";
     options := []; selectedIndex := (-1)%Z |}.

Definition password_node (typed : string) : Node :=
  Under (password_field typed) [password_field typed] body_node.

Definition input_event (target : Node) : Content.DomEvent :=
  {| Content.composedPath0 := Some target; Content.key := "";
     Content.ctrlKey := false; Content.metaKey := false |}.

(** A paragraph between the first two [div]s of the body, and the second
    [div] seen among those four children. *)
Definition paragraph : Element := element 14 "P" [].
Definition mixed_children : list Element := [div1; paragraph; div2; div3].

(** A select in the body with three options, the second one selected. *)
Definition select_element : Element :=
  {| uid := 51; nodeType := 1; tagName := "SELECT"; attributes := [("name", "size")];
     type := Some "select-one"; value := Some "m"; textContent := "SmallMediumLarge";
     options := ["Small"; "Medium"; "Large"]; selectedIndex := 1%Z |}.
Definition select_node : Node := Under select_element [select_element] body_node.

(** A text field in the body holding [typed]. *)
Definition text_field (typed : string) : Element :=
  {| uid := 52; nodeType := 1; tagName := "INPUT";
     attributes := [("type", "text"); ("name", "card")];
     type := Some "text"; value := Some typed; textContent := "";
     options := []; selectedIndex := (-1)%Z |}.
Definition text_node (typed : string) : Node :=
  Under (text_field typed) [text_field typed] body_node.

(** A link in the body whose text has blanks around it. *)
Definition link_element : Element :=
  {| uid := 53; nodeType := 1; tagName := "A"; attributes := [("href", "/next")];
     type := None; value := None; textContent := "  Next page ";
     options := []; selectedIndex := (-1)%Z |}.
Definition link_node : Node := Under link_element [link_element] body_node.

(** A document (target 0) with a [div] that holds a custom element whose
    shadow root (target 3) holds another custom element, whose shadow root
    is target 5. *)
Definition inner_widget : Listeners.Tree :=
  Listeners.El 4 (Some (Listeners.Rt 5 [])) [].
Definition widget : Listeners.Tree :=
  Listeners.El 2 (Some (Listeners.Rt 3 [inner_widget])) [].
Definition wrapper : Listeners.Tree := Listeners.El 1 None [widget].
Definition document_root : Listeners.Root := Listeners.Rt 0 [wrapper].

(** The listeners after [attachListenersToNode(document)] on that
    document. *)
Definition attached_everywhere : list (nat * string) :=
  match Listeners.attachListenersToNode 3 document_root [] with
  | Some registry => registry
  | None => []
  end.

(** The other variant: a recording state with nothing sent, and an event
    whose target, as it is and as resolved, is [target]. *)
Definition part000_recording : Part000.State :=
  {| Part000.isRecordingActive := true; Part000.outbox := [] |}.

Definition part000_event (target : Node) (k : string) : Part000.DomEvent :=
  {| Part000.target := Some target; Part000.resolvedInputTarget := Some target;
     Part000.key := k |}.

End Fixtures.

(* ===================================================================== *)
(** ** Facts about strings and [CSS.escape]                               *)
(* ===================================================================== *)

Import JS Dom Msg JSNotations.

Lemma append_nil_r (s : string) : s ++ "" = s.
Proof. induction s as [|c s IH]; simpl; [reflexivity | now rewrite IH]. Qed.

Lemma append_assoc (a b c : string) : (a ++ b) ++ c = a ++ (b ++ c).
Proof. induction a as [|x a IH]; simpl; [reflexivity | now rewrite IH]. Qed.

(** Turns the boolean range tests on a code unit into arithmetic. *)
Ltac code_arith :=
  unfold is_alnum, is_letter, is_upper, is_lower, is_digit, is_control,
    is_hyphen, is_underscore, in_range in *;
  repeat match goal with
    | H : _ && _ = true |- _ => apply andb_prop in H; destruct H
    | H : _ || _ = true |- _ => apply orb_prop in H; destruct H
    | H : (_ <=? _)%nat = true |- _ => apply Nat.leb_le in H
    | H : (_ =? _)%nat = true |- _ => apply Nat.eqb_eq in H
    end.

Ltac decide_codes :=
  repeat match goal with
    | |- context [(?a <=? ?b)%nat] => destruct (Nat.leb_spec a b); try lia
    | |- context [(?a =? ?b)%nat] => destruct (Nat.eqb_spec a b); try lia
    end;
  simpl; try reflexivity; try lia.

Lemma CSS_escape_unit_first (c : ascii) (firstIsHyphen : bool) (len : nat) :
  is_letter c || is_underscore c = true ->
  CSS_escape_unit 0 firstIsHyphen len c = String c EmptyString.
Proof.
  intros H. unfold CSS_escape_unit.
  code_arith; decide_codes.
Qed.

Lemma CSS_escape_unit_rest (c : ascii) (index len : nat) :
  is_alnum c || is_underscore c || is_hyphen c = true ->
  CSS_escape_unit (S index) false len c = String c EmptyString.
Proof.
  intros H. unfold CSS_escape_unit.
  replace (S index =? 0)%nat with false by reflexivity.
  rewrite !andb_false_r, !orb_false_r. simpl andb.
  code_arith; decide_codes.
Qed.

Lemma CSS_escape_from_rest (s : string) (index len : nat) :
  all_class (fun c => is_alnum c || is_underscore c || is_hyphen c) s = true ->
  CSS_escape_from (S index) false len s = s.
Proof.
  revert index. induction s as [|c s IH]; intros index H; simpl in *.
  - reflexivity.
  - apply andb_prop in H. destruct H as [Hc Hs].
    rewrite CSS_escape_unit_rest by exact Hc.
    simpl. now rewrite IH.
Qed.

Lemma safe_start_not_hyphen (c : ascii) :
  is_letter c || is_underscore c = true -> is_hyphen c = false.
Proof. intros H. code_arith; decide_codes. Qed.

(** [CSS.escape] leaves a class name that matches the safe identifier pattern
    as it is. *)
Lemma CSS_escape_safe_identifier (s : string) :
  Content.validClassPattern s = true -> CSS_escape s = s.
Proof.
  unfold Content.validClassPattern, test_anchored, CSS_escape.
  destruct s as [|c s]; [discriminate|].
  intros H. apply andb_prop in H. destruct H as [Hc Hs].
  rewrite (safe_start_not_hyphen c Hc).
  cbn [CSS_escape_from]. rewrite CSS_escape_unit_first by exact Hc.
  simpl. now rewrite CSS_escape_from_rest.
Qed.

Lemma valid_class_not_empty (s : string) :
  Content.validClassPattern s = true -> String.eqb s "" = false.
Proof. destruct s; [discriminate | reflexivity]. Qed.

(** Replacing each double quote by [quote_replacement] changes nothing. *)
Lemma replace_quote_identity (s : string) :
  replace_all_char dquote_char Content.quote_replacement s = s.
Proof.
  induction s as [|c s IH]; simpl; [reflexivity|].
  destruct (Ascii.eqb_spec c dquote_char) as [->|_]; simpl; now rewrite IH.
Qed.

(** What holds of every name of the allow-list: checked on the list. *)
Lemma allow_list_names :
  forallb (fun n => String.eqb (CSS_escape n) n
                    && negb (String.eqb n "class")
                    && negb (String.eqb (trim n) ""))
          Content.SAFE_ATTRIBUTES = true.
Proof. vm_compute. reflexivity. Qed.

Lemma SAFE_ATTRIBUTES_has_In (name : string) :
  Content.SAFE_ATTRIBUTES_has name = true -> In name Content.SAFE_ATTRIBUTES.
Proof.
  unfold Content.SAFE_ATTRIBUTES_has. intros H.
  apply existsb_exists in H. destruct H as [x [Hin Heq]].
  apply String.eqb_eq in Heq. now subst.
Qed.

Lemma allow_listed_name (name : string) :
  Content.SAFE_ATTRIBUTES_has name = true ->
  CSS_escape name = name
  /\ String.eqb name "class" = false
  /\ String.eqb (trim name) "" = false.
Proof.
  intros H. apply SAFE_ATTRIBUTES_has_In in H.
  pose proof allow_list_names as A.
  rewrite forallb_forall in A. specialize (A name H).
  apply andb_prop in A. destruct A as [A T].
  apply andb_prop in A. destruct A as [E C].
  apply String.eqb_eq in E.
  apply negb_true_iff in C. apply negb_true_iff in T.
  auto.
Qed.

(* ===================================================================== *)
(** ** The CSS selector of [content.ts]                                   *)
(* ===================================================================== *)

Lemma fold_class_step (classes : list string) (acc : string) :
  fold_left Content.class_step classes acc
  = acc ++ Spec.join (map Spec.class_fragment (filter Content.validClassPattern classes)).
Proof.
  revert acc. induction classes as [|c classes IH]; intros acc; simpl.
  - now rewrite append_nil_r.
  - rewrite IH. unfold Content.class_step.
    destruct (Content.validClassPattern c) eqn:V.
    + rewrite (valid_class_not_empty c V), (CSS_escape_safe_identifier c V).
      simpl negb. simpl andb. cbn [map Spec.join fold_right].
      unfold Spec.class_fragment. now rewrite !append_assoc.
    + rewrite andb_false_r. reflexivity.
Qed.

(** An allow-listed attribute adds the fragment the specification words:
    presence only, substring match or exact match. *)
Lemma attr_fragment_allowed (attr : string * string) :
  Spec.in_allow_list attr = true ->
  Content.attr_fragment attr = Some (Spec.attribute_fragment attr).
Proof.
  unfold Spec.in_allow_list. intros H.
  apply andb_prop in H. destruct H as [_ H].
  destruct (allow_listed_name _ H) as [E [C T]].
  unfold Content.attr_fragment, Spec.attribute_fragment.
  rewrite C, T, H, E, replace_quote_identity. simpl negb. cbv iota.
  destruct (String.eqb (snd attr) ""); [reflexivity|].
  destruct (test_class Content.is_selector_breaking (snd attr)); reflexivity.
Qed.

(** Every other attribute adds nothing. *)
Lemma attr_fragment_skipped (attr : string * string) :
  Spec.in_allow_list attr = false ->
  Content.attr_fragment attr = None.
Proof.
  unfold Spec.in_allow_list, Content.attr_fragment. intros H.
  destruct (String.eqb (fst attr) "class"); [reflexivity|].
  destruct (String.eqb (trim (fst attr)) ""); [reflexivity|].
  simpl in H. rewrite H. reflexivity.
Qed.

Lemma fold_attr_step (attrs : list (string * string)) (acc : string) :
  fold_left Content.attr_step attrs acc
  = acc ++ Spec.join (map Spec.attribute_fragment (filter Spec.in_allow_list attrs)).
Proof.
  revert acc. induction attrs as [|a attrs IH]; intros acc; simpl.
  - now rewrite append_nil_r.
  - rewrite IH. unfold Content.attr_step.
    destruct (Spec.in_allow_list a) eqn:A.
    + rewrite (attr_fragment_allowed a A). cbn [map Spec.join fold_right].
      now rewrite append_assoc.
    + now rewrite (attr_fragment_skipped a A).
Qed.

Lemma getEnhancedCSSSelector_refines (element : Element) (xpath : string) :
  Content.getEnhancedCSSSelector element xpath = Spec.computeCssSelector element.
Proof.
  unfold Content.getEnhancedCSSSelector, Spec.computeCssSelector.
  rewrite fold_attr_step.
  destruct (classList element) as [|c cl] eqn:CL.
  - simpl. reflexivity.
  - replace (0 <? List.length (c :: cl))%nat with true by reflexivity.
    rewrite fold_class_step. now rewrite append_assoc.
Qed.

(** C3. The selector of [getEnhancedCSSSelector] is the lowercase tag name,
    then one class fragment for each class of the class list that matches
    the safe identifier pattern (the others add nothing), then one attribute
    fragment for each attribute of the allow-list (the others add nothing).
    For [<button class="btn primary" onclick="alert(1)">] the selector
    contains [.btn.primary] and no [onclick]. *)
Theorem css_selector_keeps_safe_classes_and_allowed_attributes :
  (forall (element : Element) (xpath : string),
      Content.getEnhancedCSSSelector element xpath = Spec.computeCssSelector element)
  /\ Content.getEnhancedCSSSelector Fixtures.button "" = "button.btn.primary"
  /\ Spec.contains ".btn.primary" (Content.getEnhancedCSSSelector Fixtures.button "") = true
  /\ Spec.contains "onclick" (Content.getEnhancedCSSSelector Fixtures.button "") = false.
Proof.
  split; [exact getEnhancedCSSSelector_refines|].
  repeat split; vm_compute; reflexivity.
Qed.

Lemma after_closing_quote_plain (value tail : string) :
  all_class Spec.plain_value_char value = true ->
  Spec.after_closing_quote (value ++ dquote ++ tail) = Some tail.
Proof.
  induction value as [|c value IH]; intros H.
  - reflexivity.
  - simpl in H. apply andb_prop in H. destruct H as [Hc Hv].
    unfold Spec.plain_value_char in Hc.
    apply andb_prop in Hc. destruct Hc as [Hc Hn].
    apply andb_prop in Hc. destruct Hc as [Hq Hb].
    apply negb_true_iff in Hq, Hb, Hn.
    simpl. rewrite Hq, Hb, Hn. now apply IH.
Qed.

Lemma after_opening_quote_skip (prefix rest : string) :
  all_class (fun c => negb (Ascii.eqb c dquote_char)) prefix = true ->
  Spec.after_opening_quote (prefix ++ dquote ++ rest) = Some rest.
Proof.
  induction prefix as [|c prefix IH]; intros H.
  - reflexivity.
  - simpl in H. apply andb_prop in H. destruct H as [Hc Hp].
    apply negb_true_iff in Hc. simpl. rewrite Hc. now apply IH.
Qed.

(** A fragment built around a value with no double quote, no backslash and
    no newline keeps its quoted value intact, whatever the operator. *)
Lemma plain_value_keeps_fragment_intact (name value : string) :
  all_class (fun c => negb (Ascii.eqb c dquote_char)) name = true ->
  all_class Spec.plain_value_char value = true ->
  Spec.quoted_value_intact (Spec.exact_match name value) = true
  /\ Spec.quoted_value_intact (Spec.substring_match name value) = true.
Proof.
  intros Hn Hv. unfold Spec.quoted_value_intact, Spec.exact_match, Spec.substring_match.
  split.
  - replace ("[" ++ name ++ "=" ++ dquote ++ value ++ dquote ++ "]")
      with (("[" ++ name ++ "=") ++ dquote ++ (value ++ dquote ++ "]"))
      by (now rewrite !append_assoc).
    rewrite after_opening_quote_skip, after_closing_quote_plain; auto.
    simpl. clear Hv. induction name as [|c name IH]; [reflexivity|].
    simpl in *. apply andb_prop in Hn. destruct Hn as [Hc Hn].
    rewrite Hc. now apply IH.
  - replace ("[" ++ name ++ "*=" ++ dquote ++ value ++ dquote ++ "]")
      with (("[" ++ name ++ "*=") ++ dquote ++ (value ++ dquote ++ "]"))
      by (now rewrite !append_assoc).
    rewrite after_opening_quote_skip, after_closing_quote_plain; auto.
    simpl. clear Hv. induction name as [|c name IH]; [reflexivity|].
    simpl in *. apply andb_prop in Hn. destruct Hn as [Hc Hn].
    rewrite Hc. now apply IH.
Qed.

(** C1, at an allow-listed attribute ([data-testid]) whose value is [a], a
    double quote, [b]. The value holds a double quote, so the fragment is a
    substring match; the [replace] that builds [safeValue] puts a bare double
    quote where each double quote was, so the value reaches the fragment
    unescaped: the quoted value closes after [a], ahead of the final
    bracket. The other variant escapes the value and keeps it intact. *)
Theorem quoted_attribute_value_breaks_fragment :
  Content.attr_fragment ("data-testid", Fixtures.quoted_testid)
  = Some (Spec.substring_match "data-testid" Fixtures.quoted_testid)
  /\ Spec.quoted_value_intact
       (Spec.substring_match "data-testid" Fixtures.quoted_testid) = false
  /\ Content.getEnhancedCSSSelector Fixtures.testid_input ""
     = "input" ++ Spec.substring_match "data-testid" Fixtures.quoted_testid
  /\ Part000.getEnhancedCSSSelector (Some Fixtures.testid_input) ""
     = "input" ++ Spec.exact_match "data-testid" ("a" ++ backslash ++ dquote ++ "b")
  /\ Spec.quoted_value_intact
       (Spec.exact_match "data-testid" ("a" ++ backslash ++ dquote ++ "b")) = true.
Proof. repeat split; vm_compute; reflexivity. Qed.

(* ===================================================================== *)
(** ** XPath                                                              *)
(* ===================================================================== *)

Section SiblingIndex.

Variable element : Element.

Let same_tag (s : Element) : bool :=
  (nodeType s =? 1)%nat && String.eqb (tagName s) (tagName element).

Let other (s : Element) : bool := negb (uid s =? uid element)%nat.

(** The loop stops at the element, having counted the same-tag element
    siblings met before it. *)
Lemma content_siblings_loop_found (before after : list Element) (ix : nat) :
  forallb other before = true ->
  Content.siblings_loop element (before ++ element :: after) ix
  = Some (ix + List.length (filter same_tag before))%nat.
Proof.
  revert ix. induction before as [|s before IH]; intros ix H; simpl in *.
  - rewrite Nat.eqb_refl. f_equal. lia.
  - apply andb_prop in H. destruct H as [Hs Hb].
    unfold other in Hs. apply negb_true_iff in Hs. rewrite Hs.
    fold (same_tag s). destruct (same_tag s); simpl; rewrite IH by exact Hb;
      f_equal; lia.
Qed.

Lemma part000_siblings_loop_found (before after : list Element) (ix : nat) :
  forallb other before = true ->
  Part000.siblings_loop element (before ++ element :: after) ix
  = Some (ix + List.length (filter same_tag before))%nat.
Proof.
  revert ix. induction before as [|s before IH]; intros ix H; simpl in *.
  - rewrite Nat.eqb_refl. f_equal. lia.
  - apply andb_prop in H. destruct H as [Hs Hb].
    unfold other in Hs. apply negb_true_iff in Hs. rewrite Hs.
    fold (same_tag s). destruct (same_tag s); simpl; rewrite IH by exact Hb;
      f_equal; lia.
Qed.

End SiblingIndex.

(** C2. An element with an empty [id] that is not the document body, has a
    parent element and stands in its parent's children after [before] (none
    of which is the element itself): its XPath is the parent's XPath followed
    by [/tagname[k]], [k] being one more than the number of preceding element
    siblings with the same tag name. When the parent's XPath throws, so does
    the element's. *)
Theorem getXPath_appends_same_tag_index
  (page : Page) (element : Element) (before after : list Element) (parent : Node) :
  id element = "" ->
  is_body page element = false ->
  forallb (fun s => negb (uid s =? uid element)%nat) before = true ->
  Content.getXPath page (Under element (before ++ element :: after) parent)
  = (parentPath <- Content.getXPath page parent ;;
     Normal (parentPath ++ "/" ++ toLowerCase (tagName element)
               ++ "[" ++ number_to_string (Spec.same_tag_index element before) ++ "]")).
Proof.
  intros Hid Hbody Hbefore.
  cbn [Content.getXPath self parentNode_children].
  rewrite Hid, Hbody. simpl negb. cbv iota.
  rewrite (content_siblings_loop_found element before after 0 Hbefore).
  reflexivity.
Qed.

(** For three sibling [div]s without ids under the body, the XPath of the
    third is [body/div[3]]. *)
Lemma getXPath_third_div :
  Content.getXPath Fixtures.page Fixtures.third_div = Normal "body/div[3]".
Proof.
  exact (eq_trans
           (getXPath_appends_same_tag_index Fixtures.page Fixtures.div3
              [Fixtures.div1; Fixtures.div2] [] Fixtures.body_node
              eq_refl eq_refl eq_refl)
           eq_refl).
Defined.

(** The other variant computes the same path, for an element whose tag
    name is not empty. *)
Lemma part000_getXPath_appends_same_tag_index
  (page : Page) (element : Element) (before after : list Element) (parent : Node) :
  tagName element <> "" ->
  id element = "" ->
  is_body page element = false ->
  forallb (fun s => negb (uid s =? uid element)%nat) before = true ->
  Part000.getXPath page (Some (Under element (before ++ element :: after) parent))
  = (parentPath <- Part000.getXPath page (Some parent) ;;
     Normal (parentPath ++ "/" ++ toLowerCase (tagName element)
               ++ "[" ++ number_to_string (Spec.same_tag_index element before) ++ "]")).
Proof.
  intros Htag Hid Hbody Hbefore.
  cbn [Part000.getXPath Part000.getXPath_element self parentNode_children].
  apply String.eqb_neq in Htag.
  rewrite Htag, Hid, Hbody. simpl negb. cbv iota.
  rewrite (part000_siblings_loop_found element before after 0 Hbefore).
  reflexivity.
Qed.

(** In [content.ts] an element whose parent node is not an element (the
    root element, or a child of a shadow root) and that has no id and is not
    the body makes [getXPath] throw: the recursive call receives [null]. *)
Lemma content_getXPath_throws_under_root
  (page : Page) (element : Element) (before after : list Element) :
  id element = "" ->
  is_body page element = false ->
  forallb (fun s => negb (uid s =? uid element)%nat) before = true ->
  Content.getXPath page (UnderRoot element (before ++ element :: after)) = Throw TypeError.
Proof.
  intros Hid Hbody Hbefore.
  cbn [Content.getXPath self parentNode_children].
  rewrite Hid, Hbody. simpl negb. cbv iota.
  rewrite (content_siblings_loop_found element before after 0 Hbefore).
  reflexivity.
Qed.

(** In the other variant an element whose parent node is not an element
    gets the sentinel as its parent path. *)
Lemma part000_getXPath_under_root
  (page : Page) (element : Element) (before after : list Element) :
  tagName element <> "" ->
  id element = "" ->
  is_body page element = false ->
  forallb (fun s => negb (uid s =? uid element)%nat) before = true ->
  Part000.getXPath page (Some (UnderRoot element (before ++ element :: after)))
  = Normal ("unknown/" ++ toLowerCase (tagName element)
              ++ "[" ++ number_to_string (Spec.same_tag_index element before) ++ "]").
Proof.
  intros Htag Hid Hbody Hbefore.
  cbn [Part000.getXPath Part000.getXPath_element self parentNode_children].
  apply String.eqb_neq in Htag.
  rewrite Htag, Hid, Hbody. simpl negb. cbv iota.
  rewrite (part000_siblings_loop_found element before after 0 Hbefore).
  reflexivity.
Qed.

Lemma part000_getXPath_element_total (page : Page) (element : Node) :
  exists xpath, Part000.getXPath_element page element = Normal xpath.
Proof.
  induction element as [e | e cs | e cs p IH];
    cbn [Part000.getXPath_element self parentNode_children];
    destruct (String.eqb (tagName e) ""); try (eexists; reflexivity);
    destruct (negb (String.eqb (id e) "")); try (eexists; reflexivity);
    destruct (is_body page e); try (eexists; reflexivity);
    try destruct (Part000.siblings_loop e cs 0); try (eexists; reflexivity).
  destruct IH as [parentPath ->]. eexists; reflexivity.
Qed.

(** C4, against the claim as stated: an element whose tag data is a single
    space is not given the sentinel. *)
Lemma blank_tag_gets_no_sentinel :
  ~ (forall (page : Page) (element : Node),
        trim (tagName (self element)) = "" ->
        Part000.getXPath page (Some element) = Normal "unknown").
Proof.
  intros H.
  specialize (H Fixtures.page (Detached Fixtures.blank_tag) eq_refl).
  vm_compute in H. discriminate H.
Qed.

(** C4, as amended. [getXPath] of the other variant never throws; it
    returns ["unknown"] for a missing element and for an element whose tag
    name is empty; any other tag name, a blank one included, is used as a tag
    name. *)
Theorem part000_getXPath_total_with_sentinel :
  (forall (page : Page) (element : option Node),
      exists xpath, Part000.getXPath page element = Normal xpath)
  /\ (forall page : Page, Part000.getXPath page None = Normal "unknown")
  /\ (forall (page : Page) (element : Node),
        tagName (self element) = "" ->
        Part000.getXPath page (Some element) = Normal "unknown")
  /\ (forall (page : Page) (element : Element),
        tagName element <> "" -> id element = "" -> is_body page element = false ->
        Part000.getXPath page (Some (Detached element))
        = Normal (toLowerCase (tagName element))).
Proof.
  repeat split.
  - intros page [element|]; [apply part000_getXPath_element_total | now exists "unknown"].
  - intros page element H.
    destruct element as [e | e cs | e cs p]; simpl in H;
      cbn [Part000.getXPath Part000.getXPath_element self]; now rewrite H.
  - intros page element Htag Hid Hbody.
    cbn [Part000.getXPath Part000.getXPath_element self parentNode_children].
    apply String.eqb_neq in Htag. now rewrite Htag, Hid, Hbody.
Qed.

(** The amended C4 at concrete inputs: an element with empty tag data, and
    one whose tag data is a single space. *)
Lemma part000_getXPath_sentinel_examples :
  Part000.getXPath Fixtures.page (Some (Detached (Fixtures.element 24 "" [])))
  = Normal "unknown"
  /\ Part000.getXPath Fixtures.page (Some (Detached Fixtures.blank_tag)) = Normal " ".
Proof.
  destruct part000_getXPath_total_with_sentinel as [_ [_ [Hempty Hother]]].
  split.
  - exact (Hempty Fixtures.page (Detached (Fixtures.element 24 "" [])) eq_refl).
  - refine (Hother Fixtures.page Fixtures.blank_tag _ eq_refl eq_refl).
    discriminate.
Defined.

(* ===================================================================== *)
(** ** Capture handlers of [content.ts]                                   *)
(* ===================================================================== *)

Lemma control_keys_are_captured (k : string) :
  In k Spec.control_keys <-> Content.CAPTURED_KEYS_has k = true.
Proof.
  unfold Content.CAPTURED_KEYS_has. rewrite existsb_exists. split.
  - intros H. exists k. split; [exact H | apply String.eqb_refl].
  - intros [x [Hin Heq]]. apply String.eqb_eq in Heq. subst. exact Hin.
Qed.

Lemma control_key_not_empty (k : string) :
  In k Spec.control_keys -> String.eqb k "" = false.
Proof.
  intros H.
  assert (A : forallb (fun x => negb (String.eqb x "")) Spec.control_keys = true)
    by reflexivity.
  rewrite forallb_forall in A. apply negb_true_iff. now apply A.
Qed.

Lemma keyToLog_control (event : Content.DomEvent) :
  In (Content.key event) Spec.control_keys ->
  Content.keyToLog event = Content.key event.
Proof.
  intros H. unfold Content.keyToLog.
  apply control_keys_are_captured in H. now rewrite H.
Qed.

Lemma keyToLog_modifier (event : Content.DomEvent) (c : ascii) :
  ~ In (Content.key event) Spec.control_keys ->
  Spec.modifier_with_alnum event c ->
  Content.keyToLog event = "CmdOrCtrl+" ++ String (upper_char c) EmptyString.
Proof.
  intros Hno [Hmod [Hkey Hc]]. unfold Content.keyToLog.
  destruct (Content.CAPTURED_KEYS_has (Content.key event)) eqn:Hcap.
  - apply control_keys_are_captured in Hcap. contradiction.
  - rewrite Hkey. simpl. rewrite Hc.
    destruct Hmod as [-> | ->]; [|rewrite orb_true_r]; reflexivity.
Qed.

Lemma keyToLog_other (event : Content.DomEvent) :
  ~ In (Content.key event) Spec.control_keys ->
  (forall c, ~ Spec.modifier_with_alnum event c) ->
  Content.keyToLog event = "".
Proof.
  intros Hno Hnone. unfold Content.keyToLog.
  destruct (Content.CAPTURED_KEYS_has (Content.key event)) eqn:Hcap.
  - apply control_keys_are_captured in Hcap. contradiction.
  - destruct ((Content.ctrlKey event || Content.metaKey event)
              && (String.length (Content.key event) =? 1)%nat
              && test_class is_alnum (Content.key event)) eqn:Hcombo;
      [|reflexivity].
    exfalso.
    apply andb_prop in Hcombo. destruct Hcombo as [Hcombo Halnum].
    apply andb_prop in Hcombo. destruct Hcombo as [Hmod Hlen].
    apply Nat.eqb_eq in Hlen.
    destruct (Content.key event) as [|c [|d rest]] eqn:Hkey; try discriminate.
    apply (Hnone c). repeat split.
    + now apply orb_prop.
    + exact Hkey.
    + simpl in Halnum. now rewrite orb_false_r in Halnum.
Qed.

(** With a key to log, an active [handleKeydown] sends one key event that
    carries it. *)
Lemma handleKeydown_sends (page : Page) (event : Content.DomEvent) (st : Content.State) :
  Content.isRecordingActive st = true ->
  String.eqb (Content.keyToLog event) "" = false ->
  exists payload,
    Content.handleKeydown page event st
    = Normal (Content.sendMessage (CUSTOM_KEY_EVENT payload) st)
    /\ key_key payload = Content.keyToLog event
    /\ (key_xpath payload, key_cssSelector payload, key_elementTag payload)
       = Content.key_locators page (Content.composedPath0 event).
Proof.
  intros Hactive Hkey. unfold Content.handleKeydown.
  rewrite Hactive, Hkey. simpl negb. cbv iota.
  destruct (Content.key_locators page (Content.composedPath0 event)) as [[x c] t].
  eexists. split; [reflexivity|]. split; reflexivity.
Qed.

(** C5. While recording is active: a key of the navigational and control
    set sends a [CUSTOM_KEY_EVENT] carrying the key as it is; otherwise Ctrl
    or Meta with one alphanumeric character sends a [CUSTOM_KEY_EVENT]
    carrying [CmdOrCtrl+] and the character in upper case; every other key
    sends nothing. *)
Theorem handleKeydown_key_policy
  (page : Page) (event : Content.DomEvent) (st : Content.State) :
  Content.isRecordingActive st = true ->
  (In (Content.key event) Spec.control_keys ->
   exists payload,
     Content.handleKeydown page event st
     = Normal (Content.sendMessage (CUSTOM_KEY_EVENT payload) st)
     /\ key_key payload = Content.key event)
  /\ (forall c : ascii,
        ~ In (Content.key event) Spec.control_keys ->
        Spec.modifier_with_alnum event c ->
        exists payload,
          Content.handleKeydown page event st
          = Normal (Content.sendMessage (CUSTOM_KEY_EVENT payload) st)
          /\ key_key payload = "CmdOrCtrl+" ++ String (upper_char c) EmptyString)
  /\ (~ In (Content.key event) Spec.control_keys ->
      (forall c : ascii, ~ Spec.modifier_with_alnum event c) ->
      Content.handleKeydown page event st = Normal st).
Proof.
  intros Hactive. repeat split.
  - intros Hin.
    destruct (handleKeydown_sends page event st Hactive) as [payload [Hrun [Hkey _]]].
    + rewrite (keyToLog_control event Hin). now apply control_key_not_empty.
    + exists payload. split; [exact Hrun|]. now rewrite Hkey, keyToLog_control.
  - intros c Hno Hmod.
    destruct (handleKeydown_sends page event st Hactive) as [payload [Hrun [Hkey _]]].
    + rewrite (keyToLog_modifier event c Hno Hmod). reflexivity.
    + exists payload. split; [exact Hrun|].
      now rewrite Hkey, (keyToLog_modifier event c Hno Hmod).
  - intros Hno Hnone. unfold Content.handleKeydown.
    rewrite Hactive, (keyToLog_other event Hno Hnone). reflexivity.
Qed.

Lemma not_a_control_key (k : string) :
  Content.CAPTURED_KEYS_has k = false -> ~ In k Spec.control_keys.
Proof.
  intros H Hin. apply control_keys_are_captured in Hin. congruence.
Qed.

(** Ctrl+A is logged as [CmdOrCtrl+A]; [g] alone is not logged. *)
Lemma ctrl_a_is_logged_and_plain_g_is_not :
  (exists payload,
      Content.handleKeydown Fixtures.page (Fixtures.keydown None "a" true false)
        Fixtures.recording
      = Normal (Content.sendMessage (CUSTOM_KEY_EVENT payload) Fixtures.recording)
      /\ key_key payload = "CmdOrCtrl+A")
  /\ Content.handleKeydown Fixtures.page (Fixtures.keydown None "g" false false)
       Fixtures.recording
     = Normal Fixtures.recording.
Proof.
  split.
  - refine (proj1 (proj2 (handleKeydown_key_policy Fixtures.page
                            (Fixtures.keydown None "a" true false)
                            Fixtures.recording eq_refl))
              "a"%char (not_a_control_key "a" eq_refl) _).
    repeat split. now left.
  - refine (proj2 (proj2 (handleKeydown_key_policy Fixtures.page
                            (Fixtures.keydown None "g" false false)
                            Fixtures.recording eq_refl))
              (not_a_control_key "g" eq_refl) _).
    intros c [[H | H] _]; discriminate H.
Defined.

(** *** What a handler reads of its target *)

Lemma content_siblings_loop_blank (e : Element) (cs : list Element) (ix : nat) :
  Content.siblings_loop (Spec.blank_value e) (map Spec.blank_value cs) ix
  = Content.siblings_loop e cs ix.
Proof.
  revert ix. induction cs as [|s cs IH]; intros ix; simpl; [reflexivity|].
  now rewrite !IH.
Qed.

Lemma self_blank_values (n : Node) :
  self (Spec.blank_values n) = Spec.blank_value (self n).
Proof. destruct n; reflexivity. Qed.

(** The XPath does not depend on what was typed into any form control. *)
Lemma content_getXPath_blank (page : Page) (n : Node) :
  Content.getXPath page (Spec.blank_values n) = Content.getXPath page n.
Proof.
  induction n as [e | e cs | e cs p IH];
    cbn [Spec.blank_values Content.getXPath self parentNode_children];
    change (id (Spec.blank_value e)) with (id e);
    change (is_body page (Spec.blank_value e)) with (is_body page e);
    change (tagName (Spec.blank_value e)) with (tagName e);
    rewrite ?content_siblings_loop_blank, ?IH; reflexivity.
Qed.

Lemma content_selector_blank (e : Element) (xpath : string) :
  Content.getEnhancedCSSSelector (Spec.blank_value e) xpath
  = Content.getEnhancedCSSSelector e xpath.
Proof. reflexivity. Qed.

(** X7. The selector depends on the tag name, the class list and the
    allow-listed attributes only: nothing else of the element reaches it, a
    [value] attribute that mirrors the typed text included. *)
Lemma content_selector_reads_allow_list_only (e e' : Element) (xpath xpath' : string) :
  tagName e = tagName e' ->
  classList e = classList e' ->
  filter Spec.in_allow_list (attributes e) = filter Spec.in_allow_list (attributes e') ->
  Content.getEnhancedCSSSelector e xpath = Content.getEnhancedCSSSelector e' xpath'.
Proof.
  intros Htag Hclass Hattrs.
  rewrite !getEnhancedCSSSelector_refines. unfold Spec.computeCssSelector.
  now rewrite Htag, Hclass, Hattrs.
Qed.

Lemma mirrored_value_attribute_is_not_selected :
  Content.getEnhancedCSSSelector
    (Fixtures.element 42 "INPUT" [("type", "password"); ("value", "hunter2")]) ""
  = Content.getEnhancedCSSSelector
      (Fixtures.element 42 "INPUT" [("type", "password"); ("value", "correct horse")]) "".
Proof.
  exact (content_selector_reads_allow_list_only
           (Fixtures.element 42 "INPUT" [("type", "password"); ("value", "hunter2")])
           (Fixtures.element 42 "INPUT" [("type", "password"); ("value", "correct horse")])
           "" "" eq_refl eq_refl eq_refl).
Defined.

(** [handleInput] on a password field reads nothing of the typed text. *)
Lemma handleInput_password_blank
  (page : Page) (event event' : Content.DomEvent) (target : Node) (st : Content.State) :
  Content.composedPath0 event = Some target ->
  Content.composedPath0 event' = Some (Spec.blank_values target) ->
  type (self target) = Some "password" ->
  Content.handleInput page event st = Content.handleInput page event' st.
Proof.
  intros H H' Hpw. unfold Content.handleInput.
  rewrite H, H', content_getXPath_blank, self_blank_values.
  change (type (Spec.blank_value (self target))) with (type (self target)).
  change (tagName (Spec.blank_value (self target))) with (tagName (self target)).
  rewrite Hpw.
  change (value (Spec.blank_value (self target)))
    with (match value (self target) with Some _ => Some "" | None => None end).
  destruct (Content.isRecordingActive st); [|reflexivity]. simpl negb. cbv iota.
  destruct (value (self target)); reflexivity.
Qed.

(** C6. On a field whose [type] is [password]: when [handleInput] sends a
    message (recording active, the target has a [value], its XPath is
    computed), the message is a [CUSTOM_INPUT_EVENT] whose value is the mask
    of eight asterisks; and two runs on pages that differ only in what was
    typed into form controls end in the same state, with the same messages. *)
Theorem password_input_is_masked
  (page : Page) (event1 event2 : Content.DomEvent) (target1 target2 : Node)
  (st : Content.State) :
  Content.composedPath0 event1 = Some target1 ->
  Content.composedPath0 event2 = Some target2 ->
  type (self target1) = Some "password" ->
  Spec.same_but_typed_text target1 target2 ->
  (forall xpath : string,
      Content.isRecordingActive st = true ->
      value (self target1) <> None ->
      Content.getXPath page target1 = Normal xpath ->
      Content.handleInput page event1 st
      = Normal (Content.sendMessage
                  (CUSTOM_INPUT_EVENT
                     {| input_timestamp := now page;
                        input_url := document_href page;
                        input_frameUrl := window_href page;
                        input_xpath := xpath;
                        input_cssSelector :=
                          Content.getEnhancedCSSSelector (self target1) xpath;
                        input_elementTag := tagName (self target1);
                        input_value := "********" |})
                  st))
  /\ (Content.handleInput page event1 st = Normal st
      \/ exists payload,
          Content.handleInput page event1 st
          = Normal (Content.sendMessage (CUSTOM_INPUT_EVENT payload) st)
          /\ input_value payload = "********")
  /\ Content.handleInput page event1 st = Content.handleInput page event2 st.
Proof.
  intros H1 H2 Hpw Hsame.
  assert (Hsent : forall xpath : string,
      Content.isRecordingActive st = true ->
      value (self target1) <> None ->
      Content.getXPath page target1 = Normal xpath ->
      Content.handleInput page event1 st
      = Normal (Content.sendMessage
                  (CUSTOM_INPUT_EVENT
                     {| input_timestamp := now page;
                        input_url := document_href page;
                        input_frameUrl := window_href page;
                        input_xpath := xpath;
                        input_cssSelector :=
                          Content.getEnhancedCSSSelector (self target1) xpath;
                        input_elementTag := tagName (self target1);
                        input_value := "********" |})
                  st)).
  { intros xpath Hactive Hvalue Hxpath. unfold Content.handleInput.
    rewrite Hactive, H1, Hpw, Hxpath.
    destruct (value (self target1)); [reflexivity | contradiction]. }
  split; [exact Hsent|]. split.
  - destruct (Content.isRecordingActive st) eqn:Hactive.
    + destruct (value (self target1)) eqn:Hvalue.
      * destruct (Content.getXPath page target1) as [xpath|e] eqn:Hxpath.
        -- right. eexists. split.
           ++ apply (Hsent xpath); [reflexivity | discriminate | reflexivity].
           ++ reflexivity.
        -- left. unfold Content.handleInput.
           now rewrite Hactive, H1, Hvalue, Hxpath.
      * left. unfold Content.handleInput. now rewrite Hactive, H1, Hvalue.
    + left. unfold Content.handleInput. now rewrite Hactive.
  - unfold Spec.same_but_typed_text in Hsame.
    assert (Hpw2 : type (self target2) = Some "password").
    { change (type (self target2)) with (type (Spec.blank_value (self target2))).
      rewrite <- self_blank_values, <- Hsame, self_blank_values. exact Hpw. }
    rewrite (handleInput_password_blank page event1
               (Fixtures.input_event (Spec.blank_values target1)) target1 st
               H1 eq_refl Hpw).
    rewrite Hsame.
    symmetry.
    exact (handleInput_password_blank page event2
             (Fixtures.input_event (Spec.blank_values target2)) target2 st
             H2 eq_refl Hpw2).
Qed.

(** Two password fields that hold different text: the message is the same,
    and its value is the mask. *)
Lemma two_passwords_one_message :
  Content.handleInput Fixtures.page
    (Fixtures.input_event (Fixtures.password_node "hunter2")) Fixtures.recording
  = Content.handleInput Fixtures.page
      (Fixtures.input_event (Fixtures.password_node "correct horse")) Fixtures.recording
  /\ Content.handleInput Fixtures.page
       (Fixtures.input_event (Fixtures.password_node "hunter2")) Fixtures.recording
     = Normal (Content.sendMessage
                 (CUSTOM_INPUT_EVENT
                    {| input_timestamp := 0%Z;
                       input_url := "https://example.test/";
                       input_frameUrl := "https://example.test/";
                       input_xpath := "body/input[1]";
                       input_cssSelector := "input[type=" ++ dquote ++ "password" ++ dquote
                                            ++ "][name=" ++ dquote ++ "pw" ++ dquote ++ "]";
                       input_elementTag := "INPUT";
                       input_value := "********" |})
                 Fixtures.recording).
Proof.
  pose (T := password_input_is_masked Fixtures.page
               (Fixtures.input_event (Fixtures.password_node "hunter2"))
               (Fixtures.input_event (Fixtures.password_node "correct horse"))
               (Fixtures.password_node "hunter2")
               (Fixtures.password_node "correct horse")
               Fixtures.recording eq_refl eq_refl eq_refl eq_refl).
  split.
  - exact (proj2 (proj2 T)).
  - refine (proj1 T "body/input[1]" eq_refl _ eq_refl). discriminate.
Defined.

(** *** Failure boundaries *)

(** Every handler of [content.ts] ends normally, either leaving the state as
    it was or having sent one message. *)
Lemma content_handler_outcomes (page : Page) (event : Content.DomEvent) (st : Content.State) :
  forall handler,
    In handler [Content.handleCustomClick; Content.handleInput;
                Content.handleSelectChange; Content.handleKeydown] ->
    handler page event st = Normal st
    \/ exists m, handler page event st = Normal (Content.sendMessage m st).
Proof.
  intros handler [<- | [<- | [<- | [<- | []]]]].
  - unfold Content.handleCustomClick.
    destruct (negb (Content.isRecordingActive st)); [now left|].
    destruct (Content.composedPath0 event) as [t|]; [|now left].
    destruct (Content.getXPath page t); simpl; [right; eexists; reflexivity | now left].
  - unfold Content.handleInput.
    destruct (negb (Content.isRecordingActive st)); [now left|].
    destruct (Content.composedPath0 event) as [t|]; [|now left].
    destruct (value (self t)); [|now left].
    destruct (Content.getXPath page t); simpl; [right; eexists; reflexivity | now left].
  - unfold Content.handleSelectChange.
    destruct (negb (Content.isRecordingActive st)); [now left|].
    destruct (Content.composedPath0 event) as [t|]; [|now left].
    destruct (negb (String.eqb (tagName (self t)) "SELECT")); [now left|].
    destruct (Content.getXPath page t); simpl; [right; eexists; reflexivity | now left].
  - unfold Content.handleKeydown.
    destruct (negb (Content.isRecordingActive st)); [now left|].
    destruct (negb (String.eqb (Content.keyToLog event) "")); [|now left].
    destruct (Content.key_locators page (Content.composedPath0 event)) as [[x c] t].
    right; eexists; reflexivity.
Qed.

(** C10, against the claim as stated: a keydown on Enter inside a shadow
    root, where the XPath computation throws, is not dropped. *)
Lemma keydown_is_sent_when_locator_throws :
  ~ (forall (page : Page) (event : Content.DomEvent) (target : Node) (st : Content.State),
        Content.composedPath0 event = Some target ->
        (exists e, Content.getXPath page target = Throw e) ->
        Content.handleKeydown page event st = Normal st).
Proof.
  intros H.
  specialize (H Fixtures.page
                (Fixtures.keydown (Some Fixtures.shadow_input_node) "Enter" false false)
                Fixtures.shadow_input_node Fixtures.recording eq_refl).
  assert (Hthrow : exists e,
             Content.getXPath Fixtures.page Fixtures.shadow_input_node = Throw e)
    by (exists TypeError; reflexivity).
  specialize (H Hthrow). vm_compute in H. discriminate H.
Qed.

(** C10, as amended. When the XPath computation of the target throws: the
    click, input and select-change handlers swallow the exception and send
    nothing; the keydown handler swallows it too, and for a key that is to be
    logged it still sends the key event, with empty [xpath] and
    [cssSelector] and ["document"] as the element tag. No handler lets the
    exception out. *)
Theorem handlers_absorb_locator_failure
  (page : Page) (event : Content.DomEvent) (target : Node) (st : Content.State)
  (e : JsError) :
  Content.composedPath0 event = Some target ->
  Content.getXPath page target = Throw e ->
  Content.handleCustomClick page event st = Normal st
  /\ Content.handleInput page event st = Normal st
  /\ Content.handleSelectChange page event st = Normal st
  /\ (Content.isRecordingActive st = true ->
      Content.keyToLog event <> "" ->
      Content.handleKeydown page event st
      = Normal (Content.sendMessage
                  (CUSTOM_KEY_EVENT
                     {| key_timestamp := now page;
                        key_url := document_href page;
                        key_frameUrl := window_href page;
                        key_key := Content.keyToLog event;
                        key_xpath := "";
                        key_cssSelector := "";
                        key_elementTag := "document" |})
                  st))
  /\ (Content.isRecordingActive st = false \/ Content.keyToLog event = "" ->
      Content.handleKeydown page event st = Normal st).
Proof.
  intros Htarget Hthrow. repeat split.
  - unfold Content.handleCustomClick. rewrite Htarget, Hthrow.
    now destruct (negb (Content.isRecordingActive st)).
  - unfold Content.handleInput. rewrite Htarget, Hthrow.
    destruct (negb (Content.isRecordingActive st)); [reflexivity|].
    now destruct (value (self target)).
  - unfold Content.handleSelectChange. rewrite Htarget, Hthrow.
    destruct (negb (Content.isRecordingActive st)); [reflexivity|].
    now destruct (negb (String.eqb (tagName (self target)) "SELECT")).
  - intros Hactive Hkey. unfold Content.handleKeydown, Content.key_locators.
    apply String.eqb_neq in Hkey.
    now rewrite Hactive, Hkey, Htarget, Hthrow.
  - intros [Hinactive | Hkey]; unfold Content.handleKeydown.
    + now rewrite Hinactive.
    + rewrite Hkey. now destruct (negb (Content.isRecordingActive st)).
Qed.

(** The amended C10 at a password field inside a shadow root: a click and
    typing are dropped, Enter is sent without a locator. *)
Lemma shadow_root_events :
  Content.handleCustomClick Fixtures.page
    (Fixtures.keydown (Some Fixtures.shadow_input_node) "Enter" false false)
    Fixtures.recording
  = Normal Fixtures.recording
  /\ Content.handleInput Fixtures.page
       (Fixtures.keydown (Some Fixtures.shadow_input_node) "Enter" false false)
       Fixtures.recording
     = Normal Fixtures.recording
  /\ Content.handleKeydown Fixtures.page
       (Fixtures.keydown (Some Fixtures.shadow_input_node) "Enter" false false)
       Fixtures.recording
     = Normal (Content.sendMessage
                 (CUSTOM_KEY_EVENT
                    {| key_timestamp := 0%Z;
                       key_url := "https://example.test/";
                       key_frameUrl := "https://example.test/";
                       key_key := "Enter";
                       key_xpath := "";
                       key_cssSelector := "";
                       key_elementTag := "document" |})
                 Fixtures.recording).
Proof.
  pose (T := handlers_absorb_locator_failure Fixtures.page
               (Fixtures.keydown (Some Fixtures.shadow_input_node) "Enter" false false)
               Fixtures.shadow_input_node Fixtures.recording TypeError
               eq_refl eq_refl).
  split; [exact (proj1 T)|]. split; [exact (proj1 (proj2 T))|].
  refine (proj1 (proj2 (proj2 (proj2 T))) eq_refl _). discriminate.
Defined.

(** The handlers of the other variant have no [try]; their locator
    functions do not throw, so the click and input handlers end normally. *)
Lemma part000_click_and_input_end_normally
  (page : Page) (event : Part000.DomEvent) (st : Part000.State) :
  (exists st', Part000.handleCustomClick page event st = Normal st')
  /\ (exists st', Part000.handleInput page event st = Normal st').
Proof.
  split.
  - unfold Part000.handleCustomClick.
    destruct (negb (Part000.isRecordingActive st)); [eexists; reflexivity|].
    destruct (Part000.target event) as [t|]; [|eexists; reflexivity].
    destruct (part000_getXPath_element_total page t) as [xpath Hx].
    cbn [Part000.getXPath]. rewrite Hx. eexists; reflexivity.
  - unfold Part000.handleInput.
    destruct (negb (Part000.isRecordingActive st)); [eexists; reflexivity|].
    destruct (Part000.resolvedInputTarget event) as [t|]; [|eexists; reflexivity].
    destruct (value (self t)); [|eexists; reflexivity].
    destruct (part000_getXPath_element_total page t) as [xpath Hx].
    cbn [Part000.getXPath]. rewrite Hx. eexists; reflexivity.
Qed.

(* ===================================================================== *)
(** ** Scroll smoothing                                                   *)
(* ===================================================================== *)

(** [Math.round] gives the nearest integer, the upper one on a tie. *)
Lemma Math_round_nearest (x : Q) :
  (inject_Z (Math_round x) <= x + (1 # 2) /\ x + (1 # 2) < inject_Z (Math_round x + 1))%Q.
Proof.
  unfold Math_round. split; [apply Qfloor_le | apply Qlt_floor].
Qed.

Lemma emit_keeps_flag (event : RrwebEvent) (st : Content.State) :
  Content.isRecordingActive (Content.emit event st) = Content.isRecordingActive st.
Proof.
  unfold Content.emit.
  destruct (negb (Content.isRecordingActive st)); [reflexivity|].
  destruct event as [ts i x y | tag]; [|reflexivity].
  match goal with |- context [if ?b then _ else _] => destruct b end; reflexivity.
Qed.

(** A scroll that does not reverse sends nothing and arms the timer with its
    own rounded copy. *)
Lemma emit_defers (st : Content.State) (ts i : Z) (x y : Q) :
  Content.isRecordingActive st = true ->
  Spec.reverses st y = false ->
  Content.emit (ScrollEvent ts i x y) st
  = Content.set_scroll (Some (Content.rounded ts i x y)) (Some y)
      (Spec.direction_after st y) st.
Proof.
  intros Hactive Hrev. unfold Content.emit, Spec.reverses, Spec.direction_after in *.
  rewrite Hactive. simpl negb. cbv iota.
  destruct (Content.lastDirection st) as [tracked|], (Content.lastScrollY st) as [last|];
    try reflexivity.
  unfold Spec.direction_of in *. now rewrite Hrev.
Qed.

(** A scroll that reverses is sent at once, rounded, and no timer stays
    armed. *)
Lemma emit_flushes (st : Content.State) (ts i : Z) (x y : Q) :
  Content.isRecordingActive st = true ->
  Spec.reverses st y = true ->
  Content.emit (ScrollEvent ts i x y) st
  = Content.set_scroll None (Some y) (Spec.direction_after st y)
      (Content.sendMessage (RRWEB_EVENT (Content.rounded ts i x y)) st).
Proof.
  intros Hactive Hrev. unfold Content.emit, Spec.reverses, Spec.direction_after in *.
  rewrite Hactive. simpl negb. cbv iota.
  destruct (Content.lastDirection st) as [tracked|], (Content.lastScrollY st) as [last|];
    try discriminate Hrev.
  unfold Spec.direction_of in *. now rewrite Hrev.
Qed.

(** C9, against the claim as stated: after scrolls down to 10 and to 20 the
    timer holds the scroll to 20; the scroll back up to 15.5 is a reversal,
    and what is sent is that scroll (rounded to 16), not the buffered one;
    the tracked direction becomes [up], it is not reset. *)
Lemma reversal_sends_the_reversing_scroll :
  Content.scrollTimeout Fixtures.scrolled_down_twice
  = Some (Content.rounded 0 1 0 20)
  /\ Spec.reverses Fixtures.scrolled_down_twice (31 # 2) = true
  /\ Content.outbox (Content.emit (Fixtures.scroll (31 # 2)) Fixtures.scrolled_down_twice)
     = [RRWEB_EVENT (ScrollEvent 0 1 0 16)]
  /\ Content.outbox (Content.emit (Fixtures.scroll (31 # 2)) Fixtures.scrolled_down_twice)
     <> [RRWEB_EVENT (Content.rounded 0 1 0 20)]
  /\ Content.lastDirection (Content.emit (Fixtures.scroll (31 # 2)) Fixtures.scrolled_down_twice)
     = Some Content.up
  /\ Content.lastDirection (Content.emit (Fixtures.scroll (31 # 2)) Fixtures.scrolled_down_twice)
     <> None.
Proof.
  repeat split; try (vm_compute; reflexivity);
    intros H; vm_compute in H; discriminate H.
Qed.

(** C9, as amended. While recording is active:
    - an event that is not a scroll is sent as it is;
    - a scroll that does not reverse the tracked direction sends nothing and
      is buffered, rounded, behind the timer, replacing what was buffered;
    - a scroll that reverses the tracked direction cancels the timer and is
      itself sent at once with its own rounded coordinates; what was
      buffered is not sent; the tracked direction becomes the new one;
    - the timer, when it fires, sends the buffered scroll and resets the
      tracked direction;
    - so two scrolls without a reversal followed by the timer send one
      event, the second scroll, rounded. *)
Theorem scroll_smoothing (st : Content.State) :
  Content.isRecordingActive st = true ->
  (forall tag : nat,
      Content.emit (OtherEvent tag) st
      = Content.sendMessage (RRWEB_EVENT (OtherEvent tag)) st)
  /\ (forall (ts i : Z) (x y : Q),
        Spec.reverses st y = false ->
        Content.outbox (Content.emit (ScrollEvent ts i x y) st) = Content.outbox st
        /\ Content.scrollTimeout (Content.emit (ScrollEvent ts i x y) st)
           = Some (ScrollEvent ts i (inject_Z (Math_round x)) (inject_Z (Math_round y))))
  /\ (forall (ts i : Z) (x y last : Q),
        Spec.reverses st y = true ->
        Content.lastScrollY st = Some last ->
        Content.outbox (Content.emit (ScrollEvent ts i x y) st)
        = (Content.outbox st
             ++ [RRWEB_EVENT (ScrollEvent ts i (inject_Z (Math_round x))
                                (inject_Z (Math_round y)))])%list
        /\ Content.scrollTimeout (Content.emit (ScrollEvent ts i x y) st) = None
        /\ Content.lastDirection (Content.emit (ScrollEvent ts i x y) st)
           = Some (Spec.direction_of last y))
  /\ (forall payload : RrwebEvent,
        Content.scrollTimeout st = Some payload ->
        Content.outbox (Content.scrollTimerFires st)
        = (Content.outbox st ++ [RRWEB_EVENT payload])%list
        /\ Content.scrollTimeout (Content.scrollTimerFires st) = None
        /\ Content.lastDirection (Content.scrollTimerFires st) = None)
  /\ (forall (ts1 i1 ts2 i2 : Z) (x1 y1 x2 y2 : Q),
        Spec.reverses st y1 = false ->
        Spec.reverses (Content.emit (ScrollEvent ts1 i1 x1 y1) st) y2 = false ->
        Content.outbox
          (Content.scrollTimerFires
             (Content.emit (ScrollEvent ts2 i2 x2 y2)
                (Content.emit (ScrollEvent ts1 i1 x1 y1) st)))
        = (Content.outbox st
             ++ [RRWEB_EVENT (ScrollEvent ts2 i2 (inject_Z (Math_round x2))
                                (inject_Z (Math_round y2)))])%list).
Proof.
  intros Hactive.
  split; [intros tag; unfold Content.emit; now rewrite Hactive|].
  split.
  { intros ts i x y Hkeep.
    rewrite (emit_defers st ts i x y Hactive Hkeep). split; reflexivity. }
  split.
  { intros ts i x y last Hrev Hlast.
    rewrite (emit_flushes st ts i x y Hactive Hrev).
    split; [reflexivity|]. split; [reflexivity|].
    unfold Spec.direction_after. cbn. now rewrite Hlast. }
  split.
  { intros payload Harmed. unfold Content.scrollTimerFires. rewrite Harmed.
    split; [reflexivity|]. split; reflexivity. }
  intros ts1 i1 ts2 i2 x1 y1 x2 y2 Hkeep1 Hkeep2.
  rewrite (emit_defers _ ts2 i2 x2 y2) by (rewrite ?emit_keeps_flag; assumption).
  rewrite (emit_defers st ts1 i1 x1 y1 Hactive Hkeep1).
  reflexivity.
Qed.

(** The amended C9 on scrolls to 10.4 and 20.6 followed by the timer: one
    event, the second scroll, rounded. *)
Lemma two_scrolls_one_event :
  Content.outbox
    (Content.scrollTimerFires
       (Content.emit (ScrollEvent 0 1 0 (103 # 5))
          (Content.emit (ScrollEvent 0 1 0 (52 # 5)) Fixtures.recording)))
  = [RRWEB_EVENT (ScrollEvent 0 1 0 21)].
Proof.
  exact (proj2 (proj2 (proj2 (proj2 (scroll_smoothing Fixtures.recording eq_refl))))
           0%Z 1%Z 0%Z 1%Z 0 (52 # 5) 0 (103 # 5) eq_refl eq_refl).
Defined.

(* ===================================================================== *)
(** ** Recorder lifecycle                                                 *)
(* ===================================================================== *)

(** While the active flag is off, the [emit] callback and the four handlers
    send nothing. *)
Lemma inactive_sends_nothing
  (page : Page) (event : Content.DomEvent) (rr : RrwebEvent) (st : Content.State) :
  Content.isRecordingActive st = false ->
  Content.emit rr st = st
  /\ Content.handleCustomClick page event st = Normal st
  /\ Content.handleInput page event st = Normal st
  /\ Content.handleSelectChange page event st = Normal st
  /\ Content.handleKeydown page event st = Normal st.
Proof.
  intros H.
  unfold Content.emit, Content.handleCustomClick, Content.handleInput,
    Content.handleSelectChange, Content.handleKeydown.
  rewrite H. repeat split; reflexivity.
Qed.

(** [stopRecorder] leaves an armed debounce timer armed, and the callback
    of the timer sends its scroll whatever the active flag says. *)
Lemma stopRecorder_keeps_timer (st : Content.State) :
  Content.scrollTimeout (Content.stopRecorder st) = Content.scrollTimeout st.
Proof.
  unfold Content.stopRecorder. now destruct (Content.stopRecording st) as [[]|].
Qed.

Lemma armed_timer_sends_whatever_the_flag (st : Content.State) (payload : RrwebEvent) :
  Content.scrollTimeout st = Some payload ->
  Content.outbox (Content.scrollTimerFires st)
  = (Content.outbox st ++ [RRWEB_EVENT payload])%list.
Proof.
  intros H. unfold Content.scrollTimerFires. now rewrite H.
Qed.

(** C7, at a scroll buffered just before a stop command. Recording starts at
    load, the engine emits one scroll (held behind the debounce timer), a
    [SET_RECORDING_STATUS] with [false] stops the recorder: the active flag
    is off and the stop handle is gone, yet the timer is still armed, and
    when it fires its callback sends the scroll. *)
Theorem pending_scroll_is_sent_after_stop :
  Content.run Fixtures.stop_with_pending_scroll Content.loaded
  = Normal Fixtures.stopped_with_pending_scroll
  /\ Content.isRecordingActive Fixtures.stopped_with_pending_scroll = false
  /\ Content.stopRecording Fixtures.stopped_with_pending_scroll = None
  /\ Content.scrollTimeout Fixtures.stopped_with_pending_scroll
     = Some (ScrollEvent 0 1 0 10)
  /\ Content.outbox Fixtures.stopped_with_pending_scroll = [REQUEST_RECORDING_STATUS]
  /\ (exists st',
        Content.dispatch Content.ScrollTimer Fixtures.stopped_with_pending_scroll
        = Normal st'
        /\ Content.isRecordingActive st' = false
        /\ Content.outbox st'
           = [REQUEST_RECORDING_STATUS; RRWEB_EVENT (ScrollEvent 0 1 0 10)]).
Proof.
  repeat split; try (vm_compute; reflexivity).
  eexists. repeat split; vm_compute; reflexivity.
Qed.

Lemma sendMessage_keeps_session (m : Message) (st : Content.State) :
  Spec.session_view (Content.sendMessage m st) = Spec.session_view st.
Proof. reflexivity. Qed.

Lemma emit_keeps_session (rr : RrwebEvent) (st : Content.State) :
  Spec.session_view (Content.emit rr st) = Spec.session_view st.
Proof.
  unfold Content.emit.
  destruct (negb (Content.isRecordingActive st)); [reflexivity|].
  destruct rr as [ts i x y | tag]; [|reflexivity].
  match goal with |- context [if ?b then _ else _] => destruct b end; reflexivity.
Qed.

Lemma scrollTimerFires_keeps_session (st : Content.State) :
  Spec.session_view (Content.scrollTimerFires st) = Spec.session_view st.
Proof.
  unfold Content.scrollTimerFires.
  destruct (Content.scrollTimeout st); reflexivity.
Qed.

Lemma handler_keeps_session
  (page : Page) (event : Content.DomEvent) (st st' : Content.State) :
  forall handler,
    In handler [Content.handleCustomClick; Content.handleInput;
                Content.handleSelectChange; Content.handleKeydown] ->
    handler page event st = Normal st' ->
    Spec.session_view st' = Spec.session_view st.
Proof.
  intros handler Hin Hrun.
  destruct (content_handler_outcomes page event st handler Hin) as [H | [m H]];
    rewrite H in Hrun; injection Hrun as <-; reflexivity.
Qed.

Lemma session_facts_of_view (st st' : Content.State) :
  Spec.session_view st' = Spec.session_view st ->
  Spec.session_facts st -> Spec.session_facts st'.
Proof.
  unfold Spec.session_view, Spec.session_facts, Content.handle_matches_engine,
    Content.flag_matches_handle.
  intros H. injection H as -> -> -> ->. tauto.
Qed.

Lemma startRecorder_session_facts (st : Content.State) :
  Spec.session_facts st ->
  Spec.session_facts (Content.startRecorder st)
  /\ Content.session_invariant (Content.startRecorder st).
Proof.
  unfold Spec.session_facts, Content.session_invariant, Content.handle_matches_engine,
    Content.flag_matches_handle, Content.startRecorder.
  intros [[Hsome Hnone] [Hflag [Hafter Hbefore]]].
  destruct (Content.stopRecording st) as [h|] eqn:Hh.
  - assert (Hon : Content.isRecordingActive st = true) by (apply Hflag; discriminate).
    rewrite Hh, Hon.
    repeat split; intros; try discriminate; try tauto;
      try (apply Hsome; discriminate);
      try (destruct (Content.listenersAttached st) eqn:L;
           [congruence | destruct (Hbefore eq_refl); congruence]).
  - assert (E : Content.engines st = 0%nat) by (now apply Hnone).
    cbn. rewrite E.
    repeat split; intros; try discriminate; try reflexivity; try lia.
Qed.

Lemma stopRecorder_session_facts (st : Content.State) :
  Spec.session_facts st -> Spec.session_facts (Content.stopRecorder st).
Proof.
  unfold Spec.session_facts, Content.handle_matches_engine,
    Content.flag_matches_handle, Content.stopRecorder.
  intros [[Hsome Hnone] [Hflag [Hafter Hbefore]]].
  destruct (Content.stopRecording st) as [[]|] eqn:Hh.
  - assert (E : Content.engines st = 1%nat) by (apply Hsome; discriminate).
    cbn. rewrite E. cbn.
    repeat split; intros; try discriminate; try congruence; try lia.
    destruct (Hbefore H). discriminate.
  - rewrite Hh. repeat split; intros; try tauto;
      try (now apply Hnone); try (now apply Hafter); try (now apply Hbefore).
Qed.

Lemma dispatch_session_facts (a : Content.Action) (st st' : Content.State) :
  Spec.session_facts st ->
  Content.dispatch a st = Normal st' ->
  Spec.session_facts st'.
Proof.
  intros Hst Hrun. destruct a; cbn [Content.dispatch] in Hrun.
  - injection Hrun as <-. unfold Content.onSetRecordingStatus.
    destruct (payload && negb (Content.isRecordingActive st));
      [now apply startRecorder_session_facts|].
    destruct (negb payload && Content.isRecordingActive st);
      [now apply stopRecorder_session_facts | assumption].
  - injection Hrun as <-. unfold Content.onStatusResponse.
    destruct response as [[|]|];
      [now apply startRecorder_session_facts | | ]; now apply stopRecorder_session_facts.
  - injection Hrun as <-. now apply stopRecorder_session_facts.
  - injection Hrun as <-. destruct (Content.listenersAttached st); [|assumption].
    exact (session_facts_of_view _ _ (emit_keeps_session event st) Hst).
  - injection Hrun as <-.
    exact (session_facts_of_view _ _ (scrollTimerFires_keeps_session st) Hst).
  - destruct (Content.listenersAttached st); [|injection Hrun as <-; assumption].
    refine (session_facts_of_view _ _ (handler_keeps_session page event st st' _ _ Hrun) Hst).
    simpl; tauto.
  - destruct (Content.listenersAttached st); [|injection Hrun as <-; assumption].
    refine (session_facts_of_view _ _ (handler_keeps_session page event st st' _ _ Hrun) Hst).
    simpl; tauto.
  - destruct (Content.listenersAttached st); [|injection Hrun as <-; assumption].
    refine (session_facts_of_view _ _ (handler_keeps_session page event st st' _ _ Hrun) Hst).
    simpl; tauto.
  - destruct (Content.listenersAttached st); [|injection Hrun as <-; assumption].
    refine (session_facts_of_view _ _ (handler_keeps_session page event st st' _ _ Hrun) Hst).
    simpl; tauto.
Qed.

Lemma run_session_facts (actions : list Content.Action) (st st' : Content.State) :
  Spec.session_facts st ->
  Content.run actions st = Normal st' ->
  Spec.session_facts st'.
Proof.
  revert st. induction actions as [|a actions IH]; intros st Hst Hrun; simpl in Hrun.
  - now injection Hrun as <-.
  - destruct (Content.dispatch a st) as [st1|e] eqn:Hstep; [|discriminate].
    simpl in Hrun. exact (IH st1 (dispatch_session_facts a st st1 Hst Hstep) Hrun).
Qed.

(** In every state the script can be in, the stop handle is there exactly
    when one engine is recording, and the flag is on whenever the handle is
    there; from the first start on, the flag agrees with the handle. *)
Lemma reachable_session_facts (st : Content.State) :
  Spec.reachable st -> Spec.session_facts st.
Proof.
  intros [actions Hrun]. refine (run_session_facts actions Content.loaded st _ Hrun).
  unfold Spec.session_facts, Content.handle_matches_engine, Content.flag_matches_handle.
  cbn. repeat split; intros; try discriminate; try congruence; try reflexivity.
Qed.

(** Every sequence of turns runs to its end: no handler of [content.ts]
    throws. *)
Lemma run_ends_normally (actions : list Content.Action) (st : Content.State) :
  exists st', Content.run actions st = Normal st'.
Proof.
  revert st. induction actions as [|a actions IH]; intros st; simpl.
  - now exists st.
  - assert (Hstep : exists st1, Content.dispatch a st = Normal st1).
    { destruct a; cbn [Content.dispatch]; try (eexists; reflexivity);
        (destruct (Content.listenersAttached st); [|eexists; reflexivity]).
      - destruct (content_handler_outcomes page event st Content.handleCustomClick)
          as [H | [m H]]; [simpl; tauto | | ]; rewrite H; eexists; reflexivity.
      - destruct (content_handler_outcomes page event st Content.handleInput)
          as [H | [m H]]; [simpl; tauto | | ]; rewrite H; eexists; reflexivity.
      - destruct (content_handler_outcomes page event st Content.handleSelectChange)
          as [H | [m H]]; [simpl; tauto | | ]; rewrite H; eexists; reflexivity.
      - destruct (content_handler_outcomes page event st Content.handleKeydown)
          as [H | [m H]]; [simpl; tauto | | ]; rewrite H; eexists; reflexivity. }
    destruct Hstep as [st1 ->]. simpl. apply IH.
Qed.

(** C8, at the state the script is loaded in. The active flag starts on
    while there is no stop handle, so the flag and the handle disagree before
    any command is processed. The disagreement has an effect: when the
    initial status query answers that recording is disabled, [stopRecorder]
    finds no handle and leaves the flag on, and a later
    [SET_RECORDING_STATUS] with [true] finds the flag on and does not start
    the recorder. *)
Theorem initial_state_breaks_session_invariant :
  Content.isRecordingActive Content.initialState = true
  /\ Content.stopRecording Content.initialState = None
  /\ ~ Content.session_invariant Content.initialState
  /\ ~ Content.session_invariant Content.loaded
  /\ Content.run [Content.StatusResponse (Some false); Content.SetRecordingStatus true]
       Content.loaded
     = Normal Content.loaded
  /\ Content.engines Content.loaded = 0%nat.
Proof.
  repeat split; try reflexivity.
  - intros [_ [H _]]. exact (H eq_refl eq_refl).
  - intros [_ [H _]]. exact (H eq_refl eq_refl).
Qed.

(* ===================================================================== *)
(** ** The other variant on the same events                               *)
(* ===================================================================== *)

(** The other variant masks a password field in the same way. *)
Lemma part000_password_input_is_masked
  (page : Page) (event : Part000.DomEvent) (target : Node) (typed : string)
  (st : Part000.State) :
  Part000.isRecordingActive st = true ->
  Part000.resolvedInputTarget event = Some target ->
  type (self target) = Some "password" ->
  value (self target) = Some typed ->
  exists payload,
    Part000.handleInput page event st
    = Normal (Part000.sendMessage (CUSTOM_INPUT_EVENT payload) st)
    /\ input_value payload = "********".
Proof.
  intros Hactive Htarget Hpw Hvalue. unfold Part000.handleInput.
  rewrite Hactive, Htarget, Hvalue, Hpw. cbn [negb Part000.getXPath].
  destruct (part000_getXPath_element_total page target) as [xpath ->].
  eexists. split; reflexivity.
Qed.

(** The other variant has no key filter: with a resolved target, every key
    is sent as it is. *)
Lemma part000_handleKeydown_logs_every_key
  (page : Page) (event : Part000.DomEvent) (target : Node) (st : Part000.State) :
  Part000.isRecordingActive st = true ->
  Part000.resolvedInputTarget event = Some target ->
  exists payload,
    Part000.handleKeydown page event st
    = Normal (Part000.sendMessage (CUSTOM_KEY_EVENT payload) st)
    /\ key_key payload = Part000.key event.
Proof.
  intros Hactive Htarget. unfold Part000.handleKeydown.
  rewrite Hactive, Htarget. cbn [negb Part000.getXPath].
  destruct (part000_getXPath_element_total page target) as [xpath ->].
  eexists. split; reflexivity.
Qed.


(* ===================================================================== *)
(** ** More on the XPath                                                  *)
(* ===================================================================== *)

Lemma append_cancel_l (p a b : string) : p ++ a = p ++ b -> a = b.
Proof.
  induction p as [|c p IH]; simpl; intros H; [exact H|].
  injection H as H. now apply IH.
Qed.

Lemma append_cancel_last (a b : string) (c : ascii) :
  a ++ String c EmptyString = b ++ String c EmptyString -> a = b.
Proof.
  revert b. induction a as [|x a IH]; intros [|y b] H; simpl in H.
  - reflexivity.
  - injection H as _ H. destruct b; discriminate H.
  - injection H as _ H. destruct a; discriminate H.
  - injection H as -> H. f_equal. now apply IH.
Qed.

Lemma to_uint_not_nil (n : nat) : Nat.to_uint n <> Decimal.Nil.
Proof.
  rewrite <- (DecimalNat.Unsigned.of_to n) at 1.
  rewrite DecimalNat.Unsigned.to_of. apply DecimalFacts.unorm_nonnil.
Qed.

(** Different numbers are rendered differently. *)
Lemma number_to_string_inj (a b : nat) :
  number_to_string a = number_to_string b -> a = b.
Proof.
  unfold number_to_string. intros H.
  apply DecimalNat.Unsigned.to_uint_inj.
  assert (E : Some (Nat.to_uint a) = Some (Nat.to_uint b)).
  { rewrite <- (NilZero.usu _ (to_uint_not_nil a)), <- (NilZero.usu _ (to_uint_not_nil b)).
    now rewrite H. }
  now injection E.
Qed.

Lemma content_siblings_loop_among (e : Element) (cs : list Element) (ix : nat) :
  (Spec.among e cs = true -> exists k, Content.siblings_loop e cs ix = Some k)
  /\ (Spec.among e cs = false -> Content.siblings_loop e cs ix = None).
Proof.
  revert ix. induction cs as [|s cs IH]; intros ix; simpl.
  - split; [discriminate | reflexivity].
  - destruct (uid s =? uid e)%nat; simpl.
    + split; [now exists ix | discriminate].
    + destruct ((nodeType s =? 1)%nat && String.eqb (tagName s) (tagName e)); apply IH.
Qed.

(** X1. [getXPath] of [content.ts] throws exactly when the walk towards the
    root, through elements without id that are not the body, reaches an
    element whose parent node is not an element (the root element, a child
    of a shadow root or of a fragment); in every other case it returns a
    path. *)
Theorem getXPath_throws_exactly_off_the_top (page : Page) (element : Node) :
  (Spec.runs_off_the_top page element = true ->
   Content.getXPath page element = Throw TypeError)
  /\ (Spec.runs_off_the_top page element = false ->
      exists xpath, Content.getXPath page element = Normal xpath).
Proof.
  induction element as [e | e cs | e cs p IH];
    cbn [Spec.runs_off_the_top Content.getXPath self parentNode_children];
    destruct (negb (String.eqb (id e) ""));
    try (split; [discriminate | eexists; reflexivity]);
    destruct (is_body page e);
    try (split; [discriminate | eexists; reflexivity]).
  - destruct (content_siblings_loop_among e cs 0) as [Hin Hout].
    destruct (Spec.among e cs).
    + destruct (Hin eq_refl) as [k ->]. split; [reflexivity | discriminate].
    + rewrite (Hout eq_refl). split; [discriminate | eexists; reflexivity].
  - destruct (content_siblings_loop_among e cs 0) as [Hin Hout].
    destruct (Spec.among e cs); simpl.
    + destruct (Hin eq_refl) as [k ->]. destruct IH as [IHt IHn]. split.
      * intros H. now rewrite (IHt H).
      * intros H. destruct (IHn H) as [parentPath ->]. eexists; reflexivity.
    + rewrite (Hout eq_refl). split; [discriminate | eexists; reflexivity].
Qed.

(** X1 on the fixtures: the third [div] of the body has a path, an input in
    a shadow root has none. *)
Lemma third_div_has_a_path_shadow_input_has_none :
  (exists xpath, Content.getXPath Fixtures.page Fixtures.third_div = Normal xpath)
  /\ Content.getXPath Fixtures.page Fixtures.shadow_input_node = Throw TypeError.
Proof.
  split.
  - exact (proj2 (getXPath_throws_exactly_off_the_top Fixtures.page Fixtures.third_div)
             eq_refl).
  - exact (proj1 (getXPath_throws_exactly_off_the_top Fixtures.page
                    Fixtures.shadow_input_node) eq_refl).
Defined.

Lemma content_getXPath_of_child
  (page : Page) (element : Element) (before after : list Element) (parent : Node)
  (parentPath : string) :
  id element = "" ->
  is_body page element = false ->
  forallb (fun s => negb (uid s =? uid element)%nat) before = true ->
  Content.getXPath page parent = Normal parentPath ->
  Content.getXPath page (Under element (before ++ element :: after) parent)
  = Normal (parentPath ++ "/" ++ toLowerCase (tagName element)
              ++ "[" ++ number_to_string (Spec.same_tag_index element before) ++ "]").
Proof.
  intros Hid Hbody Hbefore Hparent.
  cbn [Content.getXPath self parentNode_children].
  rewrite Hid, Hbody. simpl negb. cbv iota.
  rewrite (content_siblings_loop_found element before after 0 Hbefore), Hparent.
  reflexivity.
Qed.

(** X2. Two children of one parent that carry the same tag name, have no
    id and are not the body get different XPaths: the one further down the
    children has the larger index. *)
Theorem same_tag_siblings_get_distinct_xpaths
  (page : Page) (a b : Element) (before mid after : list Element) (parent : Node)
  (parentPath : string) :
  tagName a = tagName b ->
  nodeType a = 1%nat ->
  id a = "" -> id b = "" ->
  is_body page a = false -> is_body page b = false ->
  forallb (fun s => negb (uid s =? uid a)%nat) before = true ->
  forallb (fun s => negb (uid s =? uid b)%nat) (before ++ a :: mid) = true ->
  Content.getXPath page parent = Normal parentPath ->
  exists pa pb,
    Content.getXPath page (Under a (before ++ a :: mid ++ b :: after) parent) = Normal pa
    /\ Content.getXPath page (Under b (before ++ a :: mid ++ b :: after) parent) = Normal pb
    /\ pa <> pb.
Proof.
  intros Htag Htype Hida Hidb Hbodya Hbodyb Hbefa Hbefb Hparent.
  eexists. eexists. split; [|split].
  - apply content_getXPath_of_child; eassumption.
  - replace (before ++ a :: mid ++ b :: after)%list
      with ((before ++ a :: mid) ++ b :: after)%list
      by (now rewrite <- List.app_assoc).
    apply content_getXPath_of_child; eassumption.
  - rewrite Htag. intros Heq.
    apply append_cancel_l in Heq.
    apply (append_cancel_l "/") in Heq.
    apply append_cancel_l in Heq.
    apply (append_cancel_l "[") in Heq.
    apply append_cancel_last in Heq.
    apply number_to_string_inj in Heq.
    unfold Spec.same_tag_index in Heq.
    rewrite filter_app in Heq. cbn [filter] in Heq.
    rewrite ?Htag, Htype, String.eqb_refl in Heq. cbn in Heq.
    rewrite List.length_app in Heq. cbn in Heq. lia.
Qed.

(** X2 on the fixtures: the first and the third [div] of the body. *)
Lemma first_and_third_div_differ :
  exists pa pb,
    Content.getXPath Fixtures.page
      (Under Fixtures.div1 [Fixtures.div1; Fixtures.div2; Fixtures.div3] Fixtures.body_node)
    = Normal pa
    /\ Content.getXPath Fixtures.page
         (Under Fixtures.div3 [Fixtures.div1; Fixtures.div2; Fixtures.div3] Fixtures.body_node)
       = Normal pb
    /\ pa <> pb.
Proof.
  exact (same_tag_siblings_get_distinct_xpaths Fixtures.page Fixtures.div1 Fixtures.div3
           [] [Fixtures.div2] [] Fixtures.body_node "body"
           eq_refl eq_refl eq_refl eq_refl eq_refl eq_refl eq_refl eq_refl eq_refl).
Defined.

(** X3. Where [getXPath] of [content.ts] returns a path, and every element
    on the way up has a tag name, [getXPath] of the other variant returns
    the same path. *)
Theorem variants_agree_on_xpath (page : Page) (element : Node) (xpath : string) :
  Spec.tag_names_present element = true ->
  Content.getXPath page element = Normal xpath ->
  Part000.getXPath page (Some element) = Normal xpath.
Proof.
  revert xpath. cbn [Part000.getXPath].
  induction element as [e | e cs | e cs p IH]; intros xpath Htags;
    cbn [Spec.tag_names_present self] in Htags;
    apply andb_prop in Htags; destruct Htags as [Htag Hrest];
    apply negb_true_iff in Htag;
    cbn [Content.getXPath Part000.getXPath_element self parentNode_children];
    rewrite Htag;
    destruct (negb (String.eqb (id e) "")); try (intros H; exact H);
    destruct (is_body page e); try (intros H; exact H);
    change (Part000.siblings_loop e cs 0) with (Content.siblings_loop e cs 0).
  - destruct (Content.siblings_loop e cs 0); [discriminate | intros H; exact H].
  - destruct (Content.siblings_loop e cs 0); [|intros H; exact H].
    destruct (Content.getXPath page p) as [parentPath|err]; [|discriminate].
    rewrite (IH parentPath Hrest eq_refl). intros H; exact H.
Qed.

(** X3 on the third [div] of the body. *)
Lemma variants_agree_on_third_div :
  Part000.getXPath Fixtures.page (Some Fixtures.third_div) = Normal "body/div[3]".
Proof.
  exact (variants_agree_on_xpath Fixtures.page Fixtures.third_div "body/div[3]"
           eq_refl eq_refl).
Defined.

(* ===================================================================== *)
(** ** More on the CSS selector                                           *)
(* ===================================================================== *)

Lemma length_append (a b : string) :
  String.length (a ++ b) = (String.length a + String.length b)%nat.
Proof. induction a as [|c a IH]; simpl; [reflexivity | now rewrite IH]. Qed.

Lemma all_class_append (cls : ascii -> bool) (a b : string) :
  all_class cls (a ++ b) = all_class cls a && all_class cls b.
Proof.
  induction a as [|c a IH]; simpl; [reflexivity|].
  now rewrite IH, andb_assoc.
Qed.

Lemma after_closing_quote_skip_plain (value rest : string) :
  all_class Spec.plain_value_char value = true ->
  Spec.after_closing_quote (value ++ rest) = Spec.after_closing_quote rest.
Proof.
  induction value as [|c value IH]; intros H; [reflexivity|].
  simpl in H. apply andb_prop in H. destruct H as [Hc Hv].
  unfold Spec.plain_value_char in Hc.
  apply andb_prop in Hc. destruct Hc as [Hc Hn].
  apply andb_prop in Hc. destruct Hc as [Hq Hb].
  apply negb_true_iff in Hq, Hb, Hn.
  simpl. rewrite Hq, Hb, Hn. now apply IH.
Qed.

Lemma after_opening_quote_none (s : string) :
  all_class (fun c => negb (Ascii.eqb c dquote_char)) s = true ->
  Spec.after_opening_quote s = None.
Proof.
  induction s as [|c s IH]; intros H; [reflexivity|].
  simpl in H. apply andb_prop in H. destruct H as [Hc Hs].
  apply negb_true_iff in Hc. simpl. rewrite Hc. now apply IH.
Qed.

Lemma allow_list_names_have_no_quote (name : string) :
  Content.SAFE_ATTRIBUTES_has name = true ->
  all_class (fun c => negb (Ascii.eqb c dquote_char)) name = true.
Proof.
  intros H. apply SAFE_ATTRIBUTES_has_In in H.
  assert (A : forallb (all_class (fun c => negb (Ascii.eqb c dquote_char)))
                Content.SAFE_ATTRIBUTES = true) by (vm_compute; reflexivity).
  rewrite forallb_forall in A. now apply A.
Qed.

(** X4. In [content.ts] an allow-listed attribute whose value has no double
    quote, no backslash and no newline adds a fragment whose quoted value is
    intact (or a presence-only fragment, which has no quoted value). *)
Theorem plain_attribute_value_gives_intact_fragment (attr : string * string) :
  Spec.in_allow_list attr = true ->
  all_class Spec.plain_value_char (snd attr) = true ->
  exists fragment,
    Content.attr_fragment attr = Some fragment
    /\ Spec.quoted_value_intact fragment = true.
Proof.
  intros Hallowed Hplain.
  exists (Spec.attribute_fragment attr). split; [now apply attr_fragment_allowed|].
  assert (Hname : all_class (fun c => negb (Ascii.eqb c dquote_char)) (fst attr) = true).
  { apply allow_list_names_have_no_quote. unfold Spec.in_allow_list in Hallowed.
    now apply andb_prop in Hallowed. }
  destruct (plain_value_keeps_fragment_intact (fst attr) (snd attr) Hname Hplain)
    as [Hexact Hsub].
  unfold Spec.attribute_fragment.
  destruct (String.eqb (snd attr) "").
  - unfold Spec.quoted_value_intact, Spec.presence_only.
    rewrite after_opening_quote_none; [reflexivity|].
    simpl. rewrite all_class_append, Hname. reflexivity.
  - now destruct (test_class Content.is_selector_breaking (snd attr)).
Qed.

(** X4 on a [placeholder] with spaces: a substring match with the value
    intact. *)
Lemma placeholder_with_spaces_is_intact :
  exists fragment,
    Content.attr_fragment ("placeholder", "Your full name") = Some fragment
    /\ Spec.quoted_value_intact fragment = true.
Proof.
  exact (plain_attribute_value_gives_intact_fragment ("placeholder", "Your full name")
           eq_refl eq_refl).
Defined.

Lemma test_class_append_r (cls : ascii -> bool) (a b : string) :
  test_class cls b = true -> test_class cls (a ++ b) = true.
Proof.
  intros H. induction a as [|c a IH]; simpl; [exact H|].
  rewrite IH. apply orb_true_r.
Qed.

Lemma not_just_a_bracket (w : string) :
  String.eqb (w ++ dquote ++ "]") "]" = false.
Proof.
  apply String.eqb_neq. intros H.
  apply (f_equal String.length) in H. rewrite length_append in H.
  simpl in H. lia.
Qed.

(** X5. In [content.ts] an allow-listed attribute whose value holds a
    double quote (after a plain beginning), or ends in a backslash (after a
    plain beginning), adds a fragment whose quoted value is not intact: the
    double quote closes the value early, the backslash takes the closing
    quote with it. *)
Theorem quote_or_trailing_backslash_breaks_fragment (name v w : string) :
  Content.SAFE_ATTRIBUTES_has name = true ->
  all_class Spec.plain_value_char v = true ->
  (exists fragment,
      Content.attr_fragment (name, v ++ dquote ++ w) = Some fragment
      /\ Spec.quoted_value_intact fragment = false)
  /\ (exists fragment,
        Content.attr_fragment (name, v ++ backslash) = Some fragment
        /\ Spec.quoted_value_intact fragment = false).
Proof.
  intros Hname Hplain.
  pose proof (allow_list_names_have_no_quote name Hname) as Hnoquote.
  destruct (allow_listed_name name Hname) as [_ [Hclass Htrim]].
  assert (Hallowed : forall value, Spec.in_allow_list (name, value) = true).
  { intros value. unfold Spec.in_allow_list. cbn [fst]. now rewrite Hclass, Htrim, Hname. }
  split.
  - eexists. split; [apply attr_fragment_allowed, Hallowed|].
    unfold Spec.attribute_fragment. cbn [fst snd].
    replace (String.eqb (v ++ dquote ++ w) "") with false
      by (symmetry; apply String.eqb_neq; intros H;
          apply (f_equal String.length) in H; rewrite length_append in H;
          simpl in H; lia).
    rewrite test_class_append_r by reflexivity.
    unfold Spec.quoted_value_intact, Spec.substring_match.
    replace ("[" ++ name ++ "*=" ++ dquote ++ (v ++ dquote ++ w) ++ dquote ++ "]")
      with (("[" ++ name ++ "*=") ++ dquote ++ (v ++ dquote ++ (w ++ dquote ++ "]")))
      by (now rewrite !append_assoc).
    rewrite after_opening_quote_skip
      by (simpl; rewrite all_class_append, Hnoquote; reflexivity).
    rewrite after_closing_quote_skip_plain by exact Hplain.
    cbn [append dquote Spec.after_closing_quote].
    replace (Ascii.eqb dquote_char dquote_char) with true by reflexivity.
    exact (not_just_a_bracket w).
  - eexists. split; [apply attr_fragment_allowed, Hallowed|].
    unfold Spec.attribute_fragment. cbn [fst snd].
    replace (String.eqb (v ++ backslash) "") with false
      by (symmetry; apply String.eqb_neq; intros H;
          apply (f_equal String.length) in H; rewrite length_append in H;
          simpl in H; lia).
    unfold Spec.quoted_value_intact, Spec.substring_match, Spec.exact_match.
    destruct (test_class Content.is_selector_breaking (v ++ backslash)).
    + replace ("[" ++ name ++ "*=" ++ dquote ++ (v ++ backslash) ++ dquote ++ "]")
        with (("[" ++ name ++ "*=") ++ dquote ++ (v ++ (backslash ++ dquote ++ "]")))
        by (now rewrite !append_assoc).
      rewrite after_opening_quote_skip
        by (simpl; rewrite all_class_append, Hnoquote; reflexivity).
      rewrite after_closing_quote_skip_plain by exact Hplain. reflexivity.
    + replace ("[" ++ name ++ "=" ++ dquote ++ (v ++ backslash) ++ dquote ++ "]")
        with (("[" ++ name ++ "=") ++ dquote ++ (v ++ (backslash ++ dquote ++ "]")))
        by (now rewrite !append_assoc).
      rewrite after_opening_quote_skip
        by (simpl; rewrite all_class_append, Hnoquote; reflexivity).
      rewrite after_closing_quote_skip_plain by exact Hplain. reflexivity.
Qed.

(** X5 on a [title]: one value with a double quote in it, one that ends in a
    backslash. *)
Lemma title_with_quote_or_backslash_breaks :
  (exists fragment,
      Content.attr_fragment ("title", "say " ++ dquote ++ "hi") = Some fragment
      /\ Spec.quoted_value_intact fragment = false)
  /\ (exists fragment,
        Content.attr_fragment ("title", "C:" ++ backslash) = Some fragment
        /\ Spec.quoted_value_intact fragment = false).
Proof.
  split.
  - exact (proj1 (quote_or_trailing_backslash_breaks_fragment "title" "say " "hi"
                    eq_refl eq_refl)).
  - exact (proj2 (quote_or_trailing_backslash_breaks_fragment "title" "C:" ""
                    eq_refl eq_refl)).
Defined.

(** Inside a double-quoted string, what [CSS.escape] writes for one code
    unit is read as part of the string, whatever the code unit. *)
Lemma after_closing_quote_escape_unit
  (index : nat) (firstIsHyphen : bool) (len : nat) (c : ascii) (rest : string) :
  Spec.after_closing_quote (CSS_escape_unit index firstIsHyphen len c ++ rest)
  = Spec.after_closing_quote rest.
Proof.
  unfold CSS_escape_unit.
  destruct (index =? 0)%nat, (index =? 1)%nat, firstIsHyphen, (len =? 1)%nat;
    destruct c as [[] [] [] [] [] [] [] []]; reflexivity.
Qed.

Lemma after_closing_quote_escape_from
  (index : nat) (firstIsHyphen : bool) (len : nat) (value rest : string) :
  Spec.after_closing_quote (CSS_escape_from index firstIsHyphen len value ++ rest)
  = Spec.after_closing_quote rest.
Proof.
  revert index. induction value as [|c value IH]; intros index; [reflexivity|].
  cbn [CSS_escape_from]. rewrite append_assoc, after_closing_quote_escape_unit.
  apply IH.
Qed.

(** What [CSS.escape] writes for a code unit other than the double quote
    holds no double quote. *)
Lemma escape_unit_has_no_quote
  (index : nat) (firstIsHyphen : bool) (len : nat) (c : ascii) :
  Ascii.eqb c dquote_char = false ->
  all_class (fun x => negb (Ascii.eqb x dquote_char))
            (CSS_escape_unit index firstIsHyphen len c) = true.
Proof.
  unfold CSS_escape_unit.
  destruct (index =? 0)%nat, (index =? 1)%nat, firstIsHyphen, (len =? 1)%nat;
    destruct c as [[] [] [] [] [] [] [] []]; intros H;
    first [reflexivity | discriminate H].
Qed.

Lemma escape_from_has_no_quote
  (index : nat) (firstIsHyphen : bool) (len : nat) (name : string) :
  all_class (fun x => negb (Ascii.eqb x dquote_char)) name = true ->
  all_class (fun x => negb (Ascii.eqb x dquote_char))
            (CSS_escape_from index firstIsHyphen len name) = true.
Proof.
  revert index. induction name as [|c name IH]; intros index H; [reflexivity|].
  simpl in H. apply andb_prop in H. destruct H as [Hc Hn].
  apply negb_true_iff in Hc.
  cbn [CSS_escape_from]. rewrite all_class_append.
  now rewrite escape_unit_has_no_quote, IH.
Qed.

(** X6. In the other variant every attribute fragment keeps its quoted
    value intact, whatever the value holds: the value goes through
    [CSS.escape]. (Attribute names hold no double quote.) *)
Theorem part000_attribute_fragments_are_intact (selector : string) (attr : string * string) :
  all_class (fun c => negb (Ascii.eqb c dquote_char)) (fst attr) = true ->
  exists fragment,
    Part000.attr_step selector attr = selector ++ fragment
    /\ Spec.quoted_value_intact fragment = true.
Proof.
  intros Hname. unfold Part000.attr_step.
  destruct (negb (String.eqb (fst attr) "class") && negb (String.eqb (snd attr) "")).
  - eexists. split; [reflexivity|].
    unfold Spec.quoted_value_intact.
    replace ("[" ++ CSS_escape (fst attr) ++ "=" ++ dquote
                 ++ CSS_escape (snd attr) ++ dquote ++ "]")
      with (("[" ++ CSS_escape (fst attr) ++ "=") ++ dquote
              ++ (CSS_escape (snd attr) ++ dquote ++ "]"))
      by (now rewrite !append_assoc).
    rewrite after_opening_quote_skip.
    + unfold CSS_escape at 1. rewrite after_closing_quote_escape_from. reflexivity.
    + simpl. rewrite all_class_append. unfold CSS_escape.
      now rewrite escape_from_has_no_quote.
  - exists "". split; [now rewrite append_nil_r | reflexivity].
Qed.

(** X6 on the value [a], double quote, [b] of [data-testid]. *)
Lemma part000_quoted_testid_is_intact :
  exists fragment,
    Part000.attr_step "input" ("data-testid", Fixtures.quoted_testid) = "input" ++ fragment
    /\ Spec.quoted_value_intact fragment = true.
Proof.
  exact (part000_attribute_fragments_are_intact "input"
           ("data-testid", Fixtures.quoted_testid) eq_refl).
Defined.


(* ===================================================================== *)
(** ** More on the capture handlers of [content.ts]                       *)
(* ===================================================================== *)

Lemma slice0_length (n : nat) (s : string) : (String.length (slice0 n s) <= n)%nat.
Proof.
  unfold slice0. revert s. induction n as [|n IH]; intros [|c s]; simpl; try lia.
  specialize (IH s). lia.
Qed.

Lemma slice0_prefix (n : nat) (s : string) : prefix (slice0 n s) s = true.
Proof.
  unfold slice0. revert s. induction n as [|n IH]; intros [|c s]; simpl; try reflexivity.
  destruct (ascii_dec c c) as [_|N]; [apply IH | now elim N].
Qed.

Lemma slice0_whole (n : nat) (s : string) :
  (String.length s <= n)%nat -> slice0 n s = s.
Proof.
  unfold slice0. revert s. induction n as [|n IH]; intros [|c s] H; simpl in *;
    try reflexivity; try lia.
  f_equal. apply IH. lia.
Qed.

(** X8. A click on a target whose XPath is computed sends one
    [CUSTOM_CLICK_EVENT] with that XPath, the selector of the target and its
    tag name as it is; the element text is a prefix of the trimmed text
    content, never longer than 200 code units, and the whole trimmed text
    when that is short enough. *)
Theorem click_payload
  (page : Page) (event : Content.DomEvent) (target : Node) (xpath : string)
  (st : Content.State) :
  Content.isRecordingActive st = true ->
  Content.composedPath0 event = Some target ->
  Content.getXPath page target = Normal xpath ->
  exists payload,
    Content.handleCustomClick page event st
    = Normal (Content.sendMessage (CUSTOM_CLICK_EVENT payload) st)
    /\ click_xpath payload = xpath
    /\ click_cssSelector payload = Content.getEnhancedCSSSelector (self target) xpath
    /\ click_elementTag payload = tagName (self target)
    /\ (String.length (click_elementText payload) <= 200)%nat
    /\ prefix (click_elementText payload) (trim (textContent (self target))) = true
    /\ ((String.length (trim (textContent (self target))) <= 200)%nat ->
        click_elementText payload = trim (textContent (self target))).
Proof.
  intros Hactive Htarget Hxpath. unfold Content.handleCustomClick.
  rewrite Hactive, Htarget, Hxpath. cbn [negb bind try_catch].
  eexists. split; [reflexivity|]. cbn.
  repeat split.
  - apply slice0_length.
  - apply slice0_prefix.
  - apply slice0_whole.
Qed.

(** X8 on a link whose text has blanks around it. *)
Lemma click_on_link :
  exists payload,
    Content.handleCustomClick Fixtures.page (Fixtures.input_event Fixtures.link_node)
      Fixtures.recording
    = Normal (Content.sendMessage (CUSTOM_CLICK_EVENT payload) Fixtures.recording)
    /\ click_xpath payload = "body/a[1]"
    /\ click_elementText payload = "Next page".
Proof.
  destruct (click_payload Fixtures.page (Fixtures.input_event Fixtures.link_node)
              Fixtures.link_node "body/a[1]" Fixtures.recording eq_refl eq_refl eq_refl)
    as [payload [Hrun [Hxpath [_ [_ [_ [_ Htext]]]]]]].
  exists payload. split; [exact Hrun|]. split; [exact Hxpath|].
  apply Htext. vm_compute. lia.
Defined.

(** The text of the selected option: the option at [selectedIndex], nothing
    when the index is negative or past the last option. *)
Lemma selectedText_bounds (e : Element) :
  ((selectedIndex e < 0)%Z \/ (Z.of_nat (List.length (options e)) <= selectedIndex e)%Z ->
   Content.selectedText e = "")
  /\ (forall text,
        (0 <= selectedIndex e)%Z ->
        nth_error (options e) (Z.to_nat (selectedIndex e)) = Some text ->
        Content.selectedText e = text).
Proof.
  unfold Content.selectedText. split.
  - intros [Hneg | Hpast].
    + apply Z.ltb_lt in Hneg. now rewrite Hneg.
    + destruct (selectedIndex e <? 0)%Z; [reflexivity|].
      assert (Hnone : nth_error (options e) (Z.to_nat (selectedIndex e)) = None)
        by (apply nth_error_None; lia).
      now rewrite Hnone.
  - intros text Hpos Hnth.
    assert (Hge : (selectedIndex e <? 0)%Z = false) by (apply Z.ltb_ge; exact Hpos).
    now rewrite Hge, Hnth.
Qed.

(** X9. A change event on anything but an element whose tag name is
    [SELECT] sends nothing. On a [SELECT] whose XPath is computed it sends
    one [CUSTOM_SELECT_EVENT] with the value of the select and the text of
    the option at [selectedIndex]; that text is empty when the index is
    negative (nothing selected) or past the last option. *)
Theorem select_change_policy
  (page : Page) (event : Content.DomEvent) (target : Node) (st : Content.State) :
  Content.isRecordingActive st = true ->
  Content.composedPath0 event = Some target ->
  (tagName (self target) <> "SELECT" ->
   Content.handleSelectChange page event st = Normal st)
  /\ (forall xpath : string,
        tagName (self target) = "SELECT" ->
        Content.getXPath page target = Normal xpath ->
        exists payload,
          Content.handleSelectChange page event st
          = Normal (Content.sendMessage (CUSTOM_SELECT_EVENT payload) st)
          /\ select_xpath payload = xpath
          /\ select_selectedValue payload = value (self target)
          /\ ((selectedIndex (self target) < 0)%Z
               \/ (Z.of_nat (List.length (options (self target)))
                   <= selectedIndex (self target))%Z ->
              select_selectedText payload = "")
          /\ (forall text,
                (0 <= selectedIndex (self target))%Z ->
                nth_error (options (self target))
                  (Z.to_nat (selectedIndex (self target))) = Some text ->
                select_selectedText payload = text)).
Proof.
  intros Hactive Htarget. unfold Content.handleSelectChange.
  rewrite Hactive, Htarget. cbn [negb]. split.
  - intros Hother. apply String.eqb_neq in Hother. now rewrite Hother.
  - intros xpath Hselect Hxpath. rewrite Hselect, Hxpath. cbn [String.eqb negb bind try_catch].
    eexists. split; [reflexivity|]. cbn.
    destruct (selectedText_bounds (self target)) as [Hout Hin].
    repeat split; assumption.
Qed.

(** X9 on a select with three options, the second one selected, and on a
    text field. *)
Lemma change_on_select_and_on_text_field :
  (exists payload,
      Content.handleSelectChange Fixtures.page (Fixtures.input_event Fixtures.select_node)
        Fixtures.recording
      = Normal (Content.sendMessage (CUSTOM_SELECT_EVENT payload) Fixtures.recording)
      /\ select_selectedValue payload = Some "m"
      /\ select_selectedText payload = "Medium")
  /\ Content.handleSelectChange Fixtures.page
       (Fixtures.input_event (Fixtures.text_node "4111")) Fixtures.recording
     = Normal Fixtures.recording.
Proof.
  split.
  - destruct (proj2 (select_change_policy Fixtures.page
                       (Fixtures.input_event Fixtures.select_node)
                       Fixtures.select_node Fixtures.recording eq_refl eq_refl)
                "body/select[1]" eq_refl eq_refl)
      as [payload [Hrun [_ [Hvalue [_ Htext]]]]].
    exists payload. split; [exact Hrun|]. split; [exact Hvalue|].
    apply Htext; [cbn; lia | reflexivity].
  - refine (proj1 (select_change_policy Fixtures.page
                     (Fixtures.input_event (Fixtures.text_node "4111"))
                     (Fixtures.text_node "4111") Fixtures.recording eq_refl eq_refl) _).
    discriminate.
Defined.

(** X10. An input event on a target without a [value] property sends
    nothing. On a target with a [value] whose [type] is not [password] and
    whose XPath is computed it sends one [CUSTOM_INPUT_EVENT] whose value is
    the text of the field as it is. *)
Theorem input_policy
  (page : Page) (event : Content.DomEvent) (target : Node) (st : Content.State) :
  Content.isRecordingActive st = true ->
  Content.composedPath0 event = Some target ->
  (value (self target) = None -> Content.handleInput page event st = Normal st)
  /\ (forall typed xpath : string,
        value (self target) = Some typed ->
        type (self target) <> Some "password" ->
        Content.getXPath page target = Normal xpath ->
        exists payload,
          Content.handleInput page event st
          = Normal (Content.sendMessage (CUSTOM_INPUT_EVENT payload) st)
          /\ input_xpath payload = xpath
          /\ input_elementTag payload = tagName (self target)
          /\ input_value payload = typed).
Proof.
  intros Hactive Htarget. unfold Content.handleInput.
  rewrite Hactive, Htarget. cbn [negb]. split.
  - intros Hnone. now rewrite Hnone.
  - intros typed xpath Hvalue Htype Hxpath. rewrite Hvalue, Hxpath.
    cbn [bind try_catch]. eexists. split; [reflexivity|]. cbn.
    repeat split.
    destruct (type (self target)) as [t|]; [|reflexivity].
    destruct (String.eqb_spec t "password") as [->|_]; [now elim Htype | reflexivity].
Qed.

(** X10 on a text field and on a link. *)
Lemma input_on_text_field_and_on_link :
  (exists payload,
      Content.handleInput Fixtures.page (Fixtures.input_event (Fixtures.text_node "4111"))
        Fixtures.recording
      = Normal (Content.sendMessage (CUSTOM_INPUT_EVENT payload) Fixtures.recording)
      /\ input_value payload = "4111")
  /\ Content.handleInput Fixtures.page (Fixtures.input_event Fixtures.link_node)
       Fixtures.recording
     = Normal Fixtures.recording.
Proof.
  split.
  - destruct (proj2 (input_policy Fixtures.page
                       (Fixtures.input_event (Fixtures.text_node "4111"))
                       (Fixtures.text_node "4111") Fixtures.recording eq_refl eq_refl)
                "4111" "body/input[1]" eq_refl) as [payload [Hrun [_ [_ Hvalue]]]];
      [discriminate | reflexivity |].
    exists payload. split; [exact Hrun | exact Hvalue].
  - exact (proj1 (input_policy Fixtures.page (Fixtures.input_event Fixtures.link_node)
                    Fixtures.link_node Fixtures.recording eq_refl eq_refl) eq_refl).
Defined.

(** X11. A key that is to be logged is sent with the locators of its
    target when the XPath of the target is computed, and with empty [xpath]
    and [cssSelector] and the element tag ["document"] when the event has no
    target. *)
Theorem keydown_locators
  (page : Page) (event : Content.DomEvent) (st : Content.State) :
  Content.isRecordingActive st = true ->
  Content.keyToLog event <> "" ->
  exists payload,
    Content.handleKeydown page event st
    = Normal (Content.sendMessage (CUSTOM_KEY_EVENT payload) st)
    /\ key_key payload = Content.keyToLog event
    /\ (Content.composedPath0 event = None ->
        key_xpath payload = "" /\ key_cssSelector payload = ""
        /\ key_elementTag payload = "document")
    /\ (forall (target : Node) (xpath : string),
          Content.composedPath0 event = Some target ->
          Content.getXPath page target = Normal xpath ->
          key_xpath payload = xpath
          /\ key_cssSelector payload = Content.getEnhancedCSSSelector (self target) xpath
          /\ key_elementTag payload = tagName (self target)).
Proof.
  intros Hactive Hkey. apply String.eqb_neq in Hkey.
  unfold Content.handleKeydown. rewrite Hactive, Hkey. cbn [negb].
  destruct (Content.key_locators page (Content.composedPath0 event)) as [[x c] t] eqn:Hloc.
  cbn [try_catch]. eexists. split; [reflexivity|]. cbn.
  split; [reflexivity|]. split.
  - intros Hnone. rewrite Hnone in Hloc. cbn in Hloc. now injection Hloc as <- <- <-.
  - intros target xpath Htarget Hxpath. rewrite Htarget in Hloc.
    cbn [Content.key_locators] in Hloc. rewrite Hxpath in Hloc.
    now injection Hloc as <- <- <-.
Qed.

(** X11 on Tab pressed in a text field and on Escape with no target. *)
Lemma tab_in_text_field_and_escape_nowhere :
  (exists payload,
      Content.handleKeydown Fixtures.page
        (Fixtures.keydown (Some (Fixtures.text_node "4111")) "Tab" false false)
        Fixtures.recording
      = Normal (Content.sendMessage (CUSTOM_KEY_EVENT payload) Fixtures.recording)
      /\ key_xpath payload = "body/input[1]" /\ key_elementTag payload = "INPUT")
  /\ (exists payload,
        Content.handleKeydown Fixtures.page (Fixtures.keydown None "Escape" false false)
          Fixtures.recording
        = Normal (Content.sendMessage (CUSTOM_KEY_EVENT payload) Fixtures.recording)
        /\ key_xpath payload = "" /\ key_elementTag payload = "document").
Proof.
  split.
  - destruct (keydown_locators Fixtures.page
                (Fixtures.keydown (Some (Fixtures.text_node "4111")) "Tab" false false)
                Fixtures.recording eq_refl) as [payload [Hrun [_ [_ Hsome]]]];
      [discriminate|].
    exists payload. split; [exact Hrun|].
    destruct (Hsome (Fixtures.text_node "4111") "body/input[1]" eq_refl eq_refl)
      as [Hx [_ Ht]].
    split; [exact Hx | exact Ht].
  - destruct (keydown_locators Fixtures.page (Fixtures.keydown None "Escape" false false)
                Fixtures.recording eq_refl) as [payload [Hrun [_ [Hnone _]]]];
      [discriminate|].
    exists payload. split; [exact Hrun|].
    destruct (Hnone eq_refl) as [Hx [_ Ht]].
    split; [exact Hx | exact Ht].
Defined.

(* ===================================================================== *)
(** ** More on the recorder lifecycle                                     *)
(* ===================================================================== *)

Lemma reachable_after_pending_scroll :
  Spec.reachable Fixtures.stopped_with_pending_scroll.
Proof. exists Fixtures.stop_with_pending_scroll. reflexivity. Qed.

Lemma reachable_recording :
  Spec.reachable (Content.startRecorder Content.loaded).
Proof. exists [Content.StatusResponse (Some true)]. reflexivity. Qed.

(** X12. In every state the script can be in: the stop handle is held
    exactly when one engine is recording and there is never more than one
    engine; the active flag is on whenever the handle is held; and once the
    recorder has been started, the flag is on exactly when the handle is
    held. *)
Theorem session_in_reachable_states (st : Content.State) :
  Spec.reachable st ->
  (Content.stopRecording st <> None <-> Content.engines st = 1%nat)
  /\ (Content.stopRecording st = None <-> Content.engines st = 0%nat)
  /\ (Content.engines st <= 1)%nat
  /\ (Content.stopRecording st <> None -> Content.isRecordingActive st = true)
  /\ (Content.listenersAttached st = true ->
      (Content.isRecordingActive st = true <-> Content.stopRecording st <> None)).
Proof.
  intros Hreach.
  destruct (reachable_session_facts st Hreach) as [[Hsome Hnone] [Hflag [Hafter _]]].
  repeat split; try (apply Hsome); try (apply Hnone); try assumption;
    try (now apply Hafter).
  destruct (Content.stopRecording st) as [h|].
  - assert (E : Content.engines st = 1%nat) by (apply Hsome; discriminate). lia.
  - assert (E : Content.engines st = 0%nat) by (now apply Hnone). lia.
Qed.

(** X12 on the state reached by a start, one scroll and a stop. *)
Lemma session_after_start_and_stop :
  (Content.engines Fixtures.stopped_with_pending_scroll <= 1)%nat
  /\ (Content.isRecordingActive Fixtures.stopped_with_pending_scroll = true
      <-> Content.stopRecording Fixtures.stopped_with_pending_scroll <> None).
Proof.
  destruct (session_in_reachable_states Fixtures.stopped_with_pending_scroll
              reachable_after_pending_scroll) as [_ [_ [Hle [_ Hagree]]]].
  split; [exact Hle | exact (Hagree eq_refl)].
Defined.

(** X13. Starting twice is starting once, stopping twice is stopping once,
    and a [SET_RECORDING_STATUS] command received twice has the effect of
    receiving it once, in any state. *)
Theorem lifecycle_commands_are_idempotent (st : Content.State) :
  Content.startRecorder (Content.startRecorder st) = Content.startRecorder st
  /\ Content.stopRecorder (Content.stopRecorder st) = Content.stopRecorder st
  /\ (forall payload : bool,
        Content.onSetRecordingStatus payload (Content.onSetRecordingStatus payload st)
        = Content.onSetRecordingStatus payload st).
Proof.
  split; [|split].
  - unfold Content.startRecorder.
    destruct (Content.stopRecording st) as [h|] eqn:Hh; cbn; [now rewrite Hh | reflexivity].
  - unfold Content.stopRecorder.
    destruct (Content.stopRecording st) as [[]|] eqn:Hh; cbn; [reflexivity | now rewrite Hh].
  - intros [|]; unfold Content.onSetRecordingStatus, Content.startRecorder,
      Content.stopRecorder; cbn [andb negb];
      destruct (Content.isRecordingActive st) eqn:Hactive; cbn [andb negb];
      destruct (Content.stopRecording st) as [[]|] eqn:Hh; cbn;
      rewrite ?Hactive, ?Hh; reflexivity.
Qed.

(** X14. Once the recorder has been started, a [SET_RECORDING_STATUS]
    command takes effect: afterwards the active flag is the requested status,
    the stop handle is held exactly when recording was requested, and one
    engine or none is recording accordingly. *)
Theorem command_takes_effect_after_first_start (st : Content.State) (payload : bool) :
  Spec.reachable st ->
  Content.listenersAttached st = true ->
  Content.isRecordingActive (Content.onSetRecordingStatus payload st) = payload
  /\ (Content.stopRecording (Content.onSetRecordingStatus payload st) <> None
      <-> payload = true)
  /\ Content.engines (Content.onSetRecordingStatus payload st)
     = (if payload then 1 else 0)%nat.
Proof.
  intros Hreach Hattached.
  destruct (reachable_session_facts st Hreach) as [[Hsome Hnone] [Hflag [Hafter _]]].
  destruct (Hafter Hattached) as [Hon Hoff].
  unfold Content.onSetRecordingStatus, Content.startRecorder, Content.stopRecorder.
  destruct (Content.isRecordingActive st) eqn:Hactive,
           (Content.stopRecording st) as [[]|] eqn:Hh;
    try (exfalso; apply (Hon eq_refl); reflexivity);
    try (assert (Hbad : false = true) by (apply Hoff; discriminate); discriminate Hbad).
  - assert (E : Content.engines st = 1%nat) by (apply Hsome; discriminate).
    destruct payload; cbn [andb negb].
    + rewrite Hactive, Hh, E. split; [reflexivity|]. split; [|reflexivity].
      split; [reflexivity | discriminate].
    + cbn. rewrite E. split; [reflexivity|]. split; [|reflexivity].
      split; [intros H; now elim H | discriminate].
  - assert (E : Content.engines st = 0%nat) by (now apply Hnone).
    destruct payload; cbn [andb negb].
    + cbn. rewrite E. split; [reflexivity|]. split; [|reflexivity].
      split; [reflexivity | discriminate].
    + rewrite Hactive, Hh, E. split; [reflexivity|]. split; [|reflexivity].
      split; [intros H; now elim H | discriminate].
Qed.

(** X14 on the state reached by a start, one scroll and a stop: a command to
    record starts the recorder again. *)
Lemma restart_after_stop :
  Content.isRecordingActive
    (Content.onSetRecordingStatus true Fixtures.stopped_with_pending_scroll) = true
  /\ Content.engines
       (Content.onSetRecordingStatus true Fixtures.stopped_with_pending_scroll) = 1%nat.
Proof.
  destruct (command_takes_effect_after_first_start Fixtures.stopped_with_pending_scroll
              true reachable_after_pending_scroll eq_refl) as [Hflag [_ Hengines]].
  split; [exact Hflag | exact Hengines].
Defined.

(** X15. Page teardown stops the engine: after [beforeunload], in any state
    the script can be in, no engine is recording and no stop handle is
    held. *)
Theorem teardown_stops_the_engine (st : Content.State) :
  Spec.reachable st ->
  exists st',
    Content.dispatch Content.BeforeUnload st = Normal st'
    /\ Content.engines st' = 0%nat
    /\ Content.stopRecording st' = None.
Proof.
  intros Hreach.
  destruct (reachable_session_facts st Hreach) as [[Hsome Hnone] _].
  eexists. split; [reflexivity|]. unfold Content.stopRecorder.
  destruct (Content.stopRecording st) as [[]|] eqn:Hh.
  - assert (E : Content.engines st = 1%nat) by (apply Hsome; discriminate).
    cbn. now rewrite E.
  - split; [now apply Hnone | exact Hh].
Qed.

(** X15 on a recorder that is recording. *)
Lemma teardown_while_recording :
  exists st',
    Content.dispatch Content.BeforeUnload (Content.startRecorder Content.loaded)
    = Normal st'
    /\ Content.engines st' = 0%nat
    /\ Content.stopRecording st' = None.
Proof.
  exact (teardown_stops_the_engine (Content.startRecorder Content.loaded)
           reachable_recording).
Defined.

Lemma capture_turn_while_inactive (a : Content.Action) (st : Content.State) :
  Content.isRecordingActive st = false ->
  Content.scrollTimeout st = None ->
  Spec.is_capture_or_timer a = true ->
  Content.dispatch a st = Normal st.
Proof.
  intros Hflag Htimer Hkind.
  destruct a; try discriminate Hkind; cbn [Content.dispatch].
  - destruct (Content.listenersAttached st); [|reflexivity].
    unfold Content.emit. now rewrite Hflag.
  - unfold Content.scrollTimerFires. now rewrite Htimer.
  - destruct (Content.listenersAttached st); [|reflexivity].
    unfold Content.handleCustomClick. now rewrite Hflag.
  - destruct (Content.listenersAttached st); [|reflexivity].
    unfold Content.handleInput. now rewrite Hflag.
  - destruct (Content.listenersAttached st); [|reflexivity].
    unfold Content.handleSelectChange. now rewrite Hflag.
  - destruct (Content.listenersAttached st); [|reflexivity].
    unfold Content.handleKeydown. now rewrite Hflag.
Qed.

(** X16. While the active flag is off and no debounce timer is armed, no
    sequence of DOM events, engine emissions and timer turns sends anything
    or changes anything: the state stays as it is until a lifecycle command
    arrives. *)
Theorem silence_while_inactive (actions : list Content.Action) (st : Content.State) :
  Content.isRecordingActive st = false ->
  Content.scrollTimeout st = None ->
  forallb Spec.is_capture_or_timer actions = true ->
  Content.run actions st = Normal st.
Proof.
  intros Hflag Htimer. induction actions as [|a actions IH]; intros Hkinds; simpl.
  - reflexivity.
  - simpl in Hkinds. apply andb_prop in Hkinds. destruct Hkinds as [Ha Hrest].
    rewrite (capture_turn_while_inactive a st Hflag Htimer Ha). simpl. now apply IH.
Qed.

(** X16 after a start and a stop with nothing buffered: a click, a scroll
    of the engine and a key leave the outbox as it was. *)
Lemma silence_after_stop :
  Content.run
    [ Content.Click Fixtures.page (Fixtures.input_event Fixtures.link_node);
      Content.EngineEmit (Fixtures.scroll 10);
      Content.ScrollTimer;
      Content.Keydown Fixtures.page (Fixtures.keydown None "Enter" false false) ]
    (Content.stopRecorder Fixtures.recording)
  = Normal (Content.stopRecorder Fixtures.recording).
Proof.
  exact (silence_while_inactive
           [ Content.Click Fixtures.page (Fixtures.input_event Fixtures.link_node);
             Content.EngineEmit (Fixtures.scroll 10);
             Content.ScrollTimer;
             Content.Keydown Fixtures.page (Fixtures.keydown None "Enter" false false) ]
           (Content.stopRecorder Fixtures.recording)
           eq_refl eq_refl eq_refl).
Defined.

Lemma content_handler_sends_custom
  (page : Page) (event : Content.DomEvent) (st : Content.State) :
  forall handler,
    In handler [Content.handleCustomClick; Content.handleInput;
                Content.handleSelectChange; Content.handleKeydown] ->
    handler page event st = Normal st
    \/ exists m, handler page event st = Normal (Content.sendMessage m st)
                 /\ Spec.is_custom m = true.
Proof.
  intros handler [<- | [<- | [<- | [<- | []]]]].
  - unfold Content.handleCustomClick.
    destruct (negb (Content.isRecordingActive st)); [now left|].
    destruct (Content.composedPath0 event) as [t|]; [|now left].
    destruct (Content.getXPath page t); simpl;
      [right; eexists; split; reflexivity | now left].
  - unfold Content.handleInput.
    destruct (negb (Content.isRecordingActive st)); [now left|].
    destruct (Content.composedPath0 event) as [t|]; [|now left].
    destruct (value (self t)); [|now left].
    destruct (Content.getXPath page t); simpl;
      [right; eexists; split; reflexivity | now left].
  - unfold Content.handleSelectChange.
    destruct (negb (Content.isRecordingActive st)); [now left|].
    destruct (Content.composedPath0 event) as [t|]; [|now left].
    destruct (negb (String.eqb (tagName (self t)) "SELECT")); [now left|].
    destruct (Content.getXPath page t); simpl;
      [right; eexists; split; reflexivity | now left].
  - unfold Content.handleKeydown.
    destruct (negb (Content.isRecordingActive st)); [now left|].
    destruct (negb (String.eqb (Content.keyToLog event) "")); [|now left].
    destruct (Content.key_locators page (Content.composedPath0 event)) as [[x c] t].
    right; eexists; split; reflexivity.
Qed.

Section RoundedScrolls.

(** The scrolls sent so far and the scroll held by the timer all have whole
    coordinates. *)
Let rounded_so_far (st : Content.State) : Prop :=
  (forall event, In (RRWEB_EVENT event) (Content.outbox st) -> Spec.scroll_is_rounded event)
  /\ (forall event, Content.scrollTimeout st = Some event -> Spec.scroll_is_rounded event).

Lemma rounded_is_rounded (ts i : Z) (x y : Q) :
  Spec.scroll_is_rounded (Content.rounded ts i x y).
Proof. split; eexists; reflexivity. Qed.

Lemma rounded_after_custom (m : Message) (st : Content.State) :
  Spec.is_custom m = true ->
  rounded_so_far st -> rounded_so_far (Content.sendMessage m st).
Proof.
  intros Hm [Hout Htimer]. split; [|exact Htimer].
  intros event Hin. cbn in Hin. apply in_app_or in Hin.
  destruct Hin as [Hin | [Heq | []]]; [now apply Hout|].
  subst m. discriminate Hm.
Qed.

Lemma rounded_after_emit (rr : RrwebEvent) (st : Content.State) :
  rounded_so_far st -> rounded_so_far (Content.emit rr st).
Proof.
  intros [Hout Htimer]. unfold Content.emit.
  destruct (negb (Content.isRecordingActive st)); [now split|].
  destruct rr as [ts i x y | tag].
  - match goal with |- context [if ?b then _ else _] => destruct b end.
    + split; [|discriminate].
      intros event Hin. cbn in Hin. apply in_app_or in Hin.
      destruct Hin as [Hin | [Heq | []]]; [now apply Hout|].
      injection Heq as <-. apply rounded_is_rounded.
    + split; [exact Hout|].
      intros event Heq. cbn in Heq. injection Heq as <-. apply rounded_is_rounded.
  - split; [|exact Htimer].
    intros event Hin. cbn in Hin. apply in_app_or in Hin.
    destruct Hin as [Hin | [Heq | []]]; [now apply Hout|].
    injection Heq as <-. exact I.
Qed.

Lemma rounded_after_timer (st : Content.State) :
  rounded_so_far st -> rounded_so_far (Content.scrollTimerFires st).
Proof.
  intros [Hout Htimer]. unfold Content.scrollTimerFires.
  pose proof (Htimer) as Hheld.
  destruct (Content.scrollTimeout st) as [payload|] eqn:Hp.
  - split; [|discriminate].
    intros event Hin. cbn in Hin. apply in_app_or in Hin.
    destruct Hin as [Hin | [Heq | []]]; [now apply Hout|].
    injection Heq as <-. now apply Hheld.
  - split; [exact Hout|]. intros event H. rewrite Hp in H. discriminate H.
Qed.

Lemma rounded_after_start_or_stop (st : Content.State) :
  rounded_so_far st ->
  rounded_so_far (Content.startRecorder st) /\ rounded_so_far (Content.stopRecorder st).
Proof.
  intros H. unfold Content.startRecorder, Content.stopRecorder.
  destruct (Content.stopRecording st) as [[]|]; split; exact H.
Qed.

Lemma rounded_after_handler
  (page : Page) (event : Content.DomEvent) (st st' : Content.State) :
  forall handler,
    In handler [Content.handleCustomClick; Content.handleInput;
                Content.handleSelectChange; Content.handleKeydown] ->
    handler page event st = Normal st' ->
    rounded_so_far st -> rounded_so_far st'.
Proof.
  intros handler Hin Hrun Hst.
  destruct (content_handler_sends_custom page event st handler Hin) as [H | [m [H Hm]]];
    rewrite H in Hrun; injection Hrun as <-; [exact Hst|].
  now apply rounded_after_custom.
Qed.

Lemma rounded_after_dispatch (a : Content.Action) (st st' : Content.State) :
  rounded_so_far st -> Content.dispatch a st = Normal st' -> rounded_so_far st'.
Proof.
  intros Hst Hrun. destruct a; cbn [Content.dispatch] in Hrun.
  - injection Hrun as <-. unfold Content.onSetRecordingStatus.
    destruct (rounded_after_start_or_stop st Hst) as [Hstart Hstop].
    destruct (payload && negb (Content.isRecordingActive st)); [exact Hstart|].
    destruct (negb payload && Content.isRecordingActive st); [exact Hstop | exact Hst].
  - injection Hrun as <-. unfold Content.onStatusResponse.
    destruct (rounded_after_start_or_stop st Hst) as [Hstart Hstop].
    destruct response as [[|]|]; assumption.
  - injection Hrun as <-. now apply rounded_after_start_or_stop.
  - injection Hrun as <-. destruct (Content.listenersAttached st); [|exact Hst].
    now apply rounded_after_emit.
  - injection Hrun as <-. now apply rounded_after_timer.
  - destruct (Content.listenersAttached st); [|injection Hrun as <-; exact Hst].
    refine (rounded_after_handler page event st st' _ _ Hrun Hst). simpl; tauto.
  - destruct (Content.listenersAttached st); [|injection Hrun as <-; exact Hst].
    refine (rounded_after_handler page event st st' _ _ Hrun Hst). simpl; tauto.
  - destruct (Content.listenersAttached st); [|injection Hrun as <-; exact Hst].
    refine (rounded_after_handler page event st st' _ _ Hrun Hst). simpl; tauto.
  - destruct (Content.listenersAttached st); [|injection Hrun as <-; exact Hst].
    refine (rounded_after_handler page event st st' _ _ Hrun Hst). simpl; tauto.
Qed.

Lemma rounded_after_run (actions : list Content.Action) (st st' : Content.State) :
  rounded_so_far st -> Content.run actions st = Normal st' -> rounded_so_far st'.
Proof.
  revert st. induction actions as [|a actions IH]; intros st Hst Hrun; simpl in Hrun.
  - now injection Hrun as <-.
  - destruct (Content.dispatch a st) as [st1|e] eqn:Hstep; [|discriminate].
    simpl in Hrun. exact (IH st1 (rounded_after_dispatch a st st1 Hst Hstep) Hrun).
Qed.

Lemma reachable_scrolls_are_rounded (st : Content.State) :
  Spec.reachable st ->
  forall event, In (RRWEB_EVENT event) (Content.outbox st) -> Spec.scroll_is_rounded event.
Proof.
  intros [actions Hrun].
  refine (proj1 (rounded_after_run actions Content.loaded st _ Hrun)).
  split.
  - intros event [Heq | []]. discriminate Heq.
  - discriminate.
Qed.

End RoundedScrolls.

(** X17. Every scroll event that was ever sent, in any state the script can
    be in, has whole coordinates: no scroll leaves the script without having
    been rounded. *)
Theorem sent_scrolls_have_whole_coordinates
  (st : Content.State) (ts i : Z) (x y : Q) :
  Spec.reachable st ->
  In (RRWEB_EVENT (ScrollEvent ts i x y)) (Content.outbox st) ->
  Spec.whole x /\ Spec.whole y.
Proof.
  intros Hreach Hin.
  exact (reachable_scrolls_are_rounded st Hreach (ScrollEvent ts i x y) Hin).
Qed.

(** X17 on the scroll sent by the timer after the stop. *)
Lemma scroll_sent_after_stop_is_whole :
  Spec.whole 0 /\ Spec.whole 10.
Proof.
  refine (sent_scrolls_have_whole_coordinates
            (Content.scrollTimerFires Fixtures.stopped_with_pending_scroll)
            0 1 0 10 _ _).
  - exists (Fixtures.stop_with_pending_scroll ++ [Content.ScrollTimer])%list. reflexivity.
  - right. left. reflexivity.
Defined.

Lemma observers_after_handler
  (page : Page) (event : Content.DomEvent) (st st' : Content.State) :
  forall handler,
    In handler [Content.handleCustomClick; Content.handleInput;
                Content.handleSelectChange; Content.handleKeydown] ->
    handler page event st = Normal st' ->
    Content.shadowObservers st' = Content.shadowObservers st.
Proof.
  intros handler Hin Hrun.
  destruct (content_handler_outcomes page event st handler Hin) as [H | [m H]];
    rewrite H in Hrun; injection Hrun as <-; reflexivity.
Qed.

Lemma observers_after_dispatch (a : Content.Action) (st st' : Content.State) :
  Content.dispatch a st = Normal st' ->
  (Content.shadowObservers st <= Content.shadowObservers st')%nat.
Proof.
  intros Hrun. destruct a; cbn [Content.dispatch] in Hrun.
  - injection Hrun as <-.
    unfold Content.onSetRecordingStatus, Content.startRecorder, Content.stopRecorder.
    destruct (payload && negb (Content.isRecordingActive st));
      [destruct (Content.stopRecording st); cbn; lia|].
    destruct (negb payload && Content.isRecordingActive st);
      [destruct (Content.stopRecording st) as [[]|]; cbn; lia | lia].
  - injection Hrun as <-.
    unfold Content.onStatusResponse, Content.startRecorder, Content.stopRecorder.
    destruct response as [[|]|]; destruct (Content.stopRecording st) as [[]|]; cbn; lia.
  - injection Hrun as <-. unfold Content.stopRecorder.
    destruct (Content.stopRecording st) as [[]|]; cbn; lia.
  - injection Hrun as <-. destruct (Content.listenersAttached st); [|lia].
    unfold Content.emit. destruct (negb (Content.isRecordingActive st)); [lia|].
    destruct event as [ts i x y | tag]; [|cbn; lia].
    match goal with |- context [if ?b then _ else _] => destruct b end; cbn; lia.
  - injection Hrun as <-. unfold Content.scrollTimerFires.
    destruct (Content.scrollTimeout st); cbn; lia.
  - destruct (Content.listenersAttached st); [|injection Hrun as <-; lia].
    rewrite (observers_after_handler page event st st' Content.handleCustomClick);
      [lia | simpl; tauto | exact Hrun].
  - destruct (Content.listenersAttached st); [|injection Hrun as <-; lia].
    rewrite (observers_after_handler page event st st' Content.handleInput);
      [lia | simpl; tauto | exact Hrun].
  - destruct (Content.listenersAttached st); [|injection Hrun as <-; lia].
    rewrite (observers_after_handler page event st st' Content.handleSelectChange);
      [lia | simpl; tauto | exact Hrun].
  - destruct (Content.listenersAttached st); [|injection Hrun as <-; lia].
    rewrite (observers_after_handler page event st st' Content.handleKeydown);
      [lia | simpl; tauto | exact Hrun].
Qed.

(** X18. The mutation observers created by [observeShadowDOM] are never
    disconnected: along any run their number does not go down, a stop leaves
    it as it is, and each start that takes effect adds one. *)
Theorem shadow_observers_accumulate
  (actions : list Content.Action) (st st' : Content.State) :
  Content.run actions st = Normal st' ->
  (Content.shadowObservers st <= Content.shadowObservers st')%nat
  /\ Content.shadowObservers (Content.stopRecorder st') = Content.shadowObservers st'
  /\ (Content.stopRecording st' = None ->
      Content.shadowObservers (Content.startRecorder st')
      = S (Content.shadowObservers st')).
Proof.
  intros Hrun. split; [|split].
  - revert st Hrun. induction actions as [|a actions IH]; intros st Hrun; simpl in Hrun.
    + injection Hrun as <-. lia.
    + destruct (Content.dispatch a st) as [st1|e] eqn:Hstep; [|discriminate].
      simpl in Hrun. pose proof (observers_after_dispatch a st st1 Hstep).
      specialize (IH st1 Hrun). lia.
  - unfold Content.stopRecorder. now destruct (Content.stopRecording st') as [[]|].
  - intros Hnone. unfold Content.startRecorder. now rewrite Hnone.
Qed.

(** X18 on a start, a stop and a second start: two observers. *)
Lemma two_starts_two_observers :
  (0 <= 1)%nat
  /\ Content.shadowObservers
       (Content.startRecorder (Content.stopRecorder (Content.startRecorder Content.loaded)))
     = 2%nat.
Proof.
  destruct (shadow_observers_accumulate
              [Content.StatusResponse (Some true); Content.SetRecordingStatus false]
              Content.loaded
              (Content.stopRecorder (Content.startRecorder Content.loaded))
              eq_refl) as [Hle [_ Hstart]].
  split; [exact Hle | exact (Hstart eq_refl)].
Defined.

(** X19. No exception leaves the script: whatever the sequence of commands,
    DOM events, engine emissions and timer turns, and whatever the targets
    of the events, every turn ends normally. *)
Theorem no_exception_leaves_the_script (actions : list Content.Action) (st : Content.State) :
  exists st', Content.run actions st = Normal st'.
Proof. exact (run_ends_normally actions st). Qed.

(* ===================================================================== *)
(** ** Listener attachment                                                *)
(* ===================================================================== *)

Import Listeners.


Lemma listens_In (target : nat) (type : string) (registry : list (nat * string)) :
  listens target type registry = true <-> In (target, type) registry.
Proof.
  unfold listens. rewrite existsb_exists. split.
  - intros [[t ty] [Hin Heq]]. cbn in Heq. apply andb_prop in Heq. destruct Heq as [Ht Hty].
    apply Nat.eqb_eq in Ht. apply String.eqb_eq in Hty. now subst.
  - intros Hin. exists (target, type). split; [exact Hin|]. cbn.
    now rewrite Nat.eqb_refl, String.eqb_refl.
Qed.

Lemma addEventListener_In (target : nat) (type : string) (registry : list (nat * string))
      (l : nat * string) :
  In l (addEventListener target type registry) <-> In l registry \/ l = (target, type).
Proof.
  unfold addEventListener. destruct (listens target type registry) eqn:H.
  - apply listens_In in H. split; [now left | intros [Hin | ->]; assumption].
  - rewrite in_app_iff. cbn. split.
    + intros [Hin | [<- | []]]; [now left | now right].
    + intros [Hin | ->]; [now left | right; now left].
Qed.

Lemma addEventListener_NoDup (target : nat) (type : string) (registry : list (nat * string)) :
  NoDup registry -> NoDup (addEventListener target type registry).
Proof.
  intros Hnd. unfold addEventListener. destruct (listens target type registry) eqn:H.
  - exact Hnd.
  - apply NoDup_app; [exact Hnd | repeat constructor; intros [] | ].
    intros l Hin [<- | []].
    apply listens_In in Hin. congruence.
Qed.

Lemma addEventListener_present (target : nat) (type : string) (registry : list (nat * string)) :
  In (target, type) registry -> addEventListener target type registry = registry.
Proof.
  intros Hin. apply listens_In in Hin. unfold addEventListener. now rewrite Hin.
Qed.

Section AddAll.

Variable target : nat.

Let add (r : list (nat * string)) (type : string) := addEventListener target type r.

Lemma add_all_In (types : list string) (registry : list (nat * string)) (l : nat * string) :
  In l (fold_left add types registry)
  <-> In l registry \/ (fst l = target /\ In (snd l) types).
Proof.
  revert registry. induction types as [|ty types IH]; intros registry; simpl.
  - tauto.
  - rewrite IH. unfold add. rewrite addEventListener_In. split.
    + intros [[Hin | ->] | [Ht Hin]].
      * now left.
      * right. split; [reflexivity | now left].
      * right. split; [exact Ht | now right].
    + intros [Hin | [Ht [Hty | Hin]]].
      * left. now left.
      * left. right. destruct l as [a b]. cbn [fst snd] in *. now subst.
      * right. now split.
Qed.

Lemma add_all_NoDup (types : list string) (registry : list (nat * string)) :
  NoDup registry -> NoDup (fold_left add types registry).
Proof.
  revert registry. induction types as [|ty types IH]; intros registry Hnd; simpl.
  - exact Hnd.
  - apply IH. now apply addEventListener_NoDup.
Qed.

Lemma add_all_present (types : list string) (registry : list (nat * string)) :
  (forall ty, In ty types -> In (target, ty) registry) ->
  fold_left add types registry = registry.
Proof.
  induction types as [|ty types IH]; intros H; simpl; [reflexivity|].
  unfold add at 2; rewrite addEventListener_present by (apply H; now left).
  apply IH. intros ty' Hin. apply H. now right.
Qed.

End AddAll.

Lemma list_max_map_In (f : Tree -> nat) (l : list Tree) (x : Tree) :
  In x l -> (f x <= list_max (map f l))%nat.
Proof.
  induction l as [|y l IH]; intros Hin; [destruct Hin|].
  destruct Hin as [-> | Hin]; simpl; [lia|].
  specialize (IH Hin). lia.
Qed.

Lemma descendants_depth (t d : Tree) :
  In d (descendants t) -> (tree_depth d <= tree_depth t)%nat.
Proof.
  revert d. induction t as [u sr cs IH] using Tree_children_ind. intros d Hin.
  cbn [descendants] in Hin. apply in_flat_map in Hin. destruct Hin as [c [Hc Hd]].
  rewrite Forall_forall in IH.
  assert (Hdc : (tree_depth d <= tree_depth c)%nat).
  { destruct Hd as [<- | Hd]; [lia | now apply IH]. }
  pose proof (list_max_map_In tree_depth cs c Hc).
  cbn [tree_depth]. lia.
Qed.

Lemma shadow_root_depth (el : Tree) (sr : Root) :
  shadowRoot_of el = Some sr -> (root_depth sr <= tree_depth el)%nat.
Proof.
  destruct el as [u [[i scs]|] cs]; cbn [shadowRoot_of]; intros H; [|discriminate].
  injection H as <-. cbn [tree_depth]. unfold root_depth. cbn [children_of].
  apply Nat.le_max_l.
Qed.

Lemma query_depth (node : Root) (el : Tree) (sr : Root) :
  In el (querySelectorAll_star node) ->
  shadowRoot_of el = Some sr ->
  (root_depth sr < root_depth node)%nat.
Proof.
  unfold querySelectorAll_star. intros Hin Hsr.
  apply in_flat_map in Hin. destruct Hin as [c [Hc Hel]].
  pose proof (shadow_root_depth el sr Hsr).
  assert (Hdc : (tree_depth el <= tree_depth c)%nat).
  { destruct Hel as [<- | Hel]; [lia | now apply descendants_depth]. }
  pose proof (list_max_map_In tree_depth (children_of node) c Hc).
  unfold root_depth at 2. lia.
Qed.

Lemma covered_unfold (node : Root) (l : nat * string) :
  covered node l
  <-> (fst l = rid_of node /\ In (snd l) EVENT_TYPES)
      \/ (exists el sr, In el (querySelectorAll_star node)
                        /\ shadowRoot_of el = Some sr /\ covered sr l).
Proof.
  unfold covered. split.
  - intros [r [Hnested [Hid Hty]]]. destruct Hnested as [outer | outer middle inner el Hin Hsr Hn].
    + now left.
    + right. exists el, middle. repeat split; try assumption. now exists inner.
  - intros [[Hid Hty] | [el [sr [Hin [Hsr [r [Hn [Hid Hty]]]]]]]].
    + exists node. repeat split; try assumption. constructor.
    + exists r. repeat split; try assumption. now apply (nested_below node sr r el).
Qed.

Lemma attach_fold (fuel : nat) (els : list Tree) :
  attach_outcome fuel ->
  forall registry : list (nat * string),
    (forall el sr, In el els -> shadowRoot_of el = Some sr -> (root_depth sr <= fuel)%nat) ->
    exists registry',
      fold_left
        (fun acc el =>
           match acc with
           | None => None
           | Some r =>
               match shadowRoot_of el with
               | Some root => attachListenersToNode fuel root r
               | None => Some r
               end
           end)
        els (Some registry) = Some registry'
      /\ (forall l, In l registry'
                    <-> In l registry
                        \/ exists el sr, In el els /\ shadowRoot_of el = Some sr /\ covered sr l)
      /\ (NoDup registry -> NoDup registry')
      /\ ((forall el sr l, In el els -> shadowRoot_of el = Some sr -> covered sr l ->
                           In l registry) -> registry' = registry).
Proof.
  intros IHfuel. induction els as [|el els IH]; intros registry Hdepth.
  - exists registry. cbn. repeat split; auto.
    + intros [H | [el [sr [[] _]]]]. exact H.
  - cbn [fold_left].
    destruct (shadowRoot_of el) as [sr|] eqn:Hsr.
    + destruct (IHfuel sr registry) as [r1 [Hrun [Hin1 [Hnd1 Hsame1]]]].
      { apply (Hdepth el sr); [now left | exact Hsr]. }
      rewrite Hrun.
      destruct (IH r1) as [r2 [Hrun2 [Hin2 [Hnd2 Hsame2]]]].
      { intros el' sr' Hin' Hsr'. apply (Hdepth el' sr'); [now right | exact Hsr']. }
      exists r2. split; [exact Hrun2|]. split; [|split].
      * intros l. rewrite Hin2, Hin1. split.
        -- intros [[H | H] | [el' [sr' [Hin' [Hsr' Hc]]]]].
           ++ now left.
           ++ right. exists el, sr. repeat split; auto. now left.
           ++ right. exists el', sr'. repeat split; auto. now right.
        -- intros [H | [el' [sr' [[<- | Hin'] [Hsr' Hc]]]]].
           ++ left. now left.
           ++ left. right. rewrite Hsr in Hsr'. now injection Hsr' as <-.
           ++ right. exists el', sr'. repeat split; auto.
      * auto.
      * intros Hall.
        assert (E1 : r1 = registry).
        { apply Hsame1. intros l Hc. apply (Hall el sr l); auto. now left. }
        subst r1. apply Hsame2. intros el' sr' l Hin' Hsr' Hc.
        apply (Hall el' sr' l); auto. now right.
    + destruct (IH registry) as [r2 [Hrun2 [Hin2 [Hnd2 Hsame2]]]].
      { intros el' sr' Hin' Hsr'. apply (Hdepth el' sr'); [now right | exact Hsr']. }
      exists r2. split; [exact Hrun2|]. split; [|split].
      * intros l. rewrite Hin2. split.
        -- intros [H | [el' [sr' [Hin' [Hsr' Hc]]]]]; [now left|].
           right. exists el', sr'. repeat split; auto. now right.
        -- intros [H | [el' [sr' [[<- | Hin'] [Hsr' Hc]]]]]; [now left | congruence |].
           right. exists el', sr'. repeat split; auto.
      * auto.
      * intros Hall. apply Hsame2. intros el' sr' l Hin' Hsr' Hc.
        apply (Hall el' sr' l); auto. now right.
Qed.

Lemma attach_outcome_holds (fuel : nat) : attach_outcome fuel.
Proof.
  induction fuel as [|fuel IH]; intros node registry Hdepth.
  - unfold root_depth in Hdepth. lia.
  - cbn [attachListenersToNode].
    set (r0 := fold_left (fun r type => addEventListener (rid_of node) type r)
                 EVENT_TYPES registry).
    destruct (attach_fold fuel (querySelectorAll_star node) IH r0)
      as [r1 [Hrun [Hin [Hnd Hsame]]]].
    { intros el sr Hel Hsr. pose proof (query_depth node el sr Hel Hsr). lia. }
    exists r1. split; [exact Hrun|]. split; [|split].
    + intros l. rewrite Hin, covered_unfold. unfold r0. rewrite add_all_In. tauto.
    + intros H. apply Hnd. unfold r0. now apply add_all_NoDup.
    + intros Hall.
      assert (E0 : r0 = registry).
      { unfold r0. apply add_all_present. intros ty Hty. apply Hall.
        apply covered_unfold. left. now split. }
      rewrite E0 in *. apply Hsame. intros el sr l Hel Hsr Hc. apply Hall.
      apply covered_unfold. right. exists el, sr. auto.
Qed.

Lemma onMutations_as_fold (fuel : nat) (nodes : list AddedNode)
      (acc : option (list (nat * string))) :
  fold_left
    (fun acc node =>
       match acc with
       | None => None
       | Some r =>
           match node with
           | HtmlElement t =>
               match shadowRoot_of t with
               | Some root => attachListenersToNode fuel root r
               | None => Some r
               end
           | OtherNode => Some r
           end
       end)
    nodes acc
  = fold_left
      (fun acc el =>
         match acc with
         | None => None
         | Some r =>
             match shadowRoot_of el with
             | Some root => attachListenersToNode fuel root r
             | None => Some r
             end
         end)
      (html_elements nodes) acc.
Proof.
  revert acc. induction nodes as [|[t|] nodes IH]; intros acc; cbn [fold_left html_elements].
  - reflexivity.
  - apply IH.
  - rewrite IH. now destruct acc.
Qed.

Lemma html_elements_In (nodes : list AddedNode) (t : Tree) :
  In t (html_elements nodes) <-> In (HtmlElement t) nodes.
Proof.
  induction nodes as [|[t'|] nodes IH]; cbn.
  - tauto.
  - rewrite IH. split; intros [H | H]; auto; left; congruence.
  - rewrite IH. split; [auto | intros [H | H]; [discriminate | exact H]].
Qed.

(** X21. [attachListenersToNode], given fuel for the nesting depth of the
    tree, ends, and afterwards the listeners are the ones there were before
    and, for each of the eight event types, one on the node and one on every
    shadow root nested below it at any depth, and no others. *)
Theorem attach_reaches_every_nested_shadow_root
  (fuel : nat) (node : Root) (registry : list (nat * string)) :
  (root_depth node <= fuel)%nat ->
  exists registry',
    attachListenersToNode fuel node registry = Some registry'
    /\ forall (target : nat) (type : string),
         In (target, type) registry'
         <-> In (target, type) registry
             \/ (In type EVENT_TYPES /\ exists r, nested node r /\ rid_of r = target).
Proof.
  intros Hdepth.
  destruct (attach_outcome_holds fuel node registry Hdepth) as [r [Hrun [Hin _]]].
  exists r. split; [exact Hrun|]. intros target type. rewrite Hin. unfold covered. cbn.
  split.
  - intros [H | [root [Hn [Hid Hty]]]]; [now left|]. right. split; [exact Hty|].
    exists root. now split.
  - intros [H | [Hty [root [Hn Hid]]]]; [now left|]. right. exists root. now repeat split.
Qed.

(** X22. Attaching a second time changes nothing, and attaching never puts
    the same listener on a target twice. *)
Theorem attach_twice_is_attach_once
  (fuel : nat) (node : Root) (registry registry' : list (nat * string)) :
  (root_depth node <= fuel)%nat ->
  attachListenersToNode fuel node registry = Some registry' ->
  attachListenersToNode fuel node registry' = Some registry'
  /\ (NoDup registry -> NoDup registry').
Proof.
  intros Hdepth Hrun.
  destruct (attach_outcome_holds fuel node registry Hdepth) as [r [Hrun1 [Hin [Hnd _]]]].
  rewrite Hrun in Hrun1. injection Hrun1 as <-.
  split; [|exact Hnd].
  destruct (attach_outcome_holds fuel node registry' Hdepth) as [r2 [Hrun2 [_ [_ Hsame]]]].
  rewrite Hrun2. f_equal. apply Hsame. intros l Hc. apply Hin. now right.
Qed.

(** X23. The mutation observer attaches to the shadow root of an added
    HTML element and to the shadow roots nested in it, and to nothing else:
    when no added node is an HTML element with a shadow root of its own, no
    listener is added, whatever the added nodes have further down. *)
Theorem observer_attaches_to_own_shadow_roots
  (fuel : nat) (mutations : list (list AddedNode)) (registry : list (nat * string)) :
  (forall t sr, In (HtmlElement t) (concat mutations) -> shadowRoot_of t = Some sr ->
                (root_depth sr <= fuel)%nat) ->
  exists registry',
    onMutations fuel mutations registry = Some registry'
    /\ (forall l, In l registry'
                  <-> In l registry
                      \/ exists t sr, In (HtmlElement t) (concat mutations)
                                      /\ shadowRoot_of t = Some sr /\ covered sr l)
    /\ ((forall t, In (HtmlElement t) (concat mutations) -> shadowRoot_of t = None) ->
        registry' = registry).
Proof.
  intros Hdepth. unfold onMutations. rewrite onMutations_as_fold.
  destruct (attach_fold fuel (html_elements (concat mutations))
              (attach_outcome_holds fuel) registry)
    as [r [Hrun [Hin [_ Hsame]]]].
  { intros el sr Hel Hsr. apply (Hdepth el sr); [now apply html_elements_In | exact Hsr]. }
  exists r. split; [exact Hrun|]. split.
  - intros l. rewrite Hin. split.
    + intros [H | [t [sr [Ht [Hsr Hc]]]]]; [now left|].
      right. exists t, sr. repeat split; auto. now apply html_elements_In.
    + intros [H | [t [sr [Ht [Hsr Hc]]]]]; [now left|].
      right. exists t, sr. repeat split; auto. now apply html_elements_In.
  - intros Hnone. apply Hsame. intros el sr l Hel Hsr Hc.
    apply html_elements_In in Hel. rewrite (Hnone el Hel) in Hsr. discriminate Hsr.
Qed.

(** X21 on a document with a shadow root nested in a shadow root: the inner
    one listens to [keydown]. *)
Lemma nested_shadow_root_listens :
  exists registry',
    attachListenersToNode 3 Fixtures.document_root [] = Some registry'
    /\ In (5%nat, "keydown") registry'.
Proof.
  destruct (attach_reaches_every_nested_shadow_root 3 Fixtures.document_root [] (le_n 3))
    as [r [Hrun Hin]].
  exists r. split; [exact Hrun|]. apply Hin. right. split; [simpl; tauto|].
  exists (Rt 5 []). split; [|reflexivity].
  apply (nested_below Fixtures.document_root (Rt 3 [Fixtures.inner_widget]) (Rt 5 [])
           Fixtures.widget); [simpl; tauto | reflexivity |].
  apply (nested_below (Rt 3 [Fixtures.inner_widget]) (Rt 5 []) (Rt 5 [])
           Fixtures.inner_widget); [simpl; tauto | reflexivity | constructor].
Defined.

(** X22 on the same document: a second call leaves the listeners as the
    first call left them, none twice. *)
Lemma second_attach_changes_nothing :
  attachListenersToNode 3 Fixtures.document_root Fixtures.attached_everywhere
  = Some Fixtures.attached_everywhere
  /\ NoDup Fixtures.attached_everywhere.
Proof.
  destruct (attach_twice_is_attach_once 3 Fixtures.document_root []
              Fixtures.attached_everywhere (le_n 3) eq_refl) as [Hagain Hnodup].
  split; [exact Hagain | apply Hnodup; constructor].
Defined.

(** X23 on a [div] added with a custom element inside it: the [div] has no
    shadow root of its own, so the shadow root inside gets no listener. *)
Lemma added_wrapper_is_not_instrumented :
  onMutations 3 [[HtmlElement Fixtures.wrapper; OtherNode]] [] = Some [].
Proof.
  destruct (observer_attaches_to_own_shadow_roots 3
              [[HtmlElement Fixtures.wrapper; OtherNode]] [])
    as [r [Hrun [_ Hsame]]].
  - intros t sr [H | [H | []]] Hsr; [injection H as <-; discriminate Hsr | discriminate H].
  - rewrite Hrun. f_equal. apply Hsame.
    intros t [H | [H | []]]; [injection H as <-; reflexivity | discriminate H].
Defined.

(* ===================================================================== *)
(** ** Keys in the other variant                                          *)
(* ===================================================================== *)

(** X20. In the other variant the mask covers the input event only: on a
    password field, the input event carries the mask, and every key pressed
    in the field is sent as it is, whatever the key. *)
Theorem part000_mask_does_not_cover_keys
  (page : Page) (inputEvent keyEvent : Part000.DomEvent) (target : Node) (typed : string)
  (st : Part000.State) :
  Part000.isRecordingActive st = true ->
  Part000.resolvedInputTarget inputEvent = Some target ->
  Part000.resolvedInputTarget keyEvent = Some target ->
  type (self target) = Some "password" ->
  value (self target) = Some typed ->
  (exists payload,
      Part000.handleInput page inputEvent st
      = Normal (Part000.sendMessage (CUSTOM_INPUT_EVENT payload) st)
      /\ input_value payload = "********")
  /\ (exists payload,
        Part000.handleKeydown page keyEvent st
        = Normal (Part000.sendMessage (CUSTOM_KEY_EVENT payload) st)
        /\ key_key payload = Part000.key keyEvent
        /\ key_elementTag payload = tagName (self target)).
Proof.
  intros Hactive Hinput Hkey Hpw Hvalue. split.
  - exact (part000_password_input_is_masked page inputEvent target typed st
             Hactive Hinput Hpw Hvalue).
  - unfold Part000.handleKeydown. rewrite Hactive, Hkey. cbn [negb Part000.getXPath].
    destruct (part000_getXPath_element_total page target) as [xpath ->].
    eexists. split; [reflexivity|]. split; reflexivity.
Qed.

(** X20 on the letter [h] typed into a password field. *)
Lemma part000_password_key_is_sent :
  exists payload,
    Part000.handleKeydown Fixtures.page
      (Fixtures.part000_event (Fixtures.password_node "hunter2") "h")
      Fixtures.part000_recording
    = Normal (Part000.sendMessage (CUSTOM_KEY_EVENT payload) Fixtures.part000_recording)
    /\ key_key payload = "h"
    /\ key_elementTag payload = "INPUT".
Proof.
  exact (proj2 (part000_mask_does_not_cover_keys Fixtures.page
                  (Fixtures.part000_event (Fixtures.password_node "hunter2") "h")
                  (Fixtures.part000_event (Fixtures.password_node "hunter2") "h")
                  (Fixtures.password_node "hunter2") "hunter2"
                  Fixtures.part000_recording eq_refl eq_refl eq_refl eq_refl eq_refl)).
Defined.
